(** * fs/sync.c: sync(), syncfs(), fsync(), fdatasync(), sync_file_range()

    A shallow embedding of [src/fs/sync.c] and the properties of its
    coalescing protocol, of the per-volume flush and of the range
    validator and three-phase range engine.

    The C code is embedded in a state monad over the kernel state the file
    touches.  Services that live outside [fs/sync.c] (write-back, block
    layer, quota, tracing, the allocator, the clock) are recorded as
    events in a chronological log; the value such a call returns is given
    by an oracle that sees the whole history, so that any deterministic
    behaviour of the outside world is covered. *)

From Stdlib Require Import ZArith List Bool Lia String.
Import ListNotations.
Open Scope Z_scope.

(** ** Machine integers *)

Module Word.

(** Value of [x] stored in an unsigned integer of [w] bits. *)
Definition unsigned (w x : Z) : Z := x mod 2 ^ w.

(** Value of [x] stored in a two's complement integer of [w] bits. *)
Definition signed (w x : Z) : Z :=
  let u := x mod 2 ^ w in
  if u <? 2 ^ (w - 1) then u else u - 2 ^ w.

Definition u32 : Z -> Z := unsigned 32.
Definition u64 : Z -> Z := unsigned 64.
Definition s64 : Z -> Z := signed 64.

Definition is_u32 (x : Z) : Prop := 0 <= x < 2 ^ 32.
Definition is_s64 (x : Z) : Prop := - 2 ^ 63 <= x < 2 ^ 63.

End Word.

(** ** Build configuration *)

Record kconfig := mk_kconfig {
  BITS_PER_LONG : Z;              (* width of [unsigned long] *)
  sizeof_pgoff_t : Z;             (* [sizeof(pgoff_t)], in bytes *)
  PAGE_CACHE_SHIFT : Z;
  CONFIG_DYNAMIC_FSYNC : bool
}.

(** Modelled from the spec: the errno values, the [SYNC_FILE_RANGE_*] flag
    bits, [MS_RDONLY], [LLONG_MAX] and the [S_IS*] file-type tests come from
    kernel headers that are not part of the sources at hand; they carry
    their usual Linux values.  The range flags are the three distinct bits
    WAIT_BEFORE, WRITE and WAIT_AFTER; the file types are regular file,
    block device, directory and symbolic link. *)
Definition EBADF : Z := 9.
Definition EINVAL : Z := 22.
Definition ESPIPE : Z := 29.

Definition SYNC_FILE_RANGE_WAIT_BEFORE : Z := 1.
Definition SYNC_FILE_RANGE_WRITE : Z := 2.
Definition SYNC_FILE_RANGE_WAIT_AFTER : Z := 4.

Definition MS_RDONLY : Z := 1.
Definition LLONG_MAX : Z := 2 ^ 63 - 1.

Definition S_IFMT : Z := 61440.    (* 0170000 *)
Definition S_IFLNK : Z := 40960.   (* 0120000 *)
Definition S_IFREG : Z := 32768.   (* 0100000 *)
Definition S_IFBLK : Z := 24576.   (* 0060000 *)
Definition S_IFDIR : Z := 16384.   (* 0040000 *)
Definition S_ISLNK (m : Z) : bool := Z.land m S_IFMT =? S_IFLNK.
Definition S_ISREG (m : Z) : bool := Z.land m S_IFMT =? S_IFREG.
Definition S_ISBLK (m : Z) : bool := Z.land m S_IFMT =? S_IFBLK.
Definition S_ISDIR (m : Z) : bool := Z.land m S_IFMT =? S_IFDIR.

(** [#define VALID_FLAGS (SYNC_FILE_RANGE_WAIT_BEFORE|SYNC_FILE_RANGE_WRITE|
                          SYNC_FILE_RANGE_WAIT_AFTER)] *)
Definition VALID_FLAGS : Z :=
  Z.lor (Z.lor SYNC_FILE_RANGE_WAIT_BEFORE SYNC_FILE_RANGE_WRITE)
        SYNC_FILE_RANGE_WAIT_AFTER.

(** ** Kernel objects *)

Inductive backing_dev_info :=
| noop_backing_dev_info
| bdi (id : Z).

Definition bdi_eqb (a b : backing_dev_info) : bool :=
  match a, b with
  | noop_backing_dev_info, noop_backing_dev_info => true
  | bdi i, bdi j => i =? j
  | _, _ => false
  end.

(** [struct super_block], restricted to what [fs/sync.c] reads.  The two
    hooks are function pointers; only their presence is a field, what they
    return is the oracle's business. *)
Record super_block := mk_super_block {
  s_dev : Z;                      (* identity of the volume *)
  s_bdi : backing_dev_info;
  s_flags : Z;
  s_qcop_quota_sync : bool;       (* [sb->s_qcop && sb->s_qcop->quota_sync] *)
  s_op_sync_fs : bool;            (* [sb->s_op->sync_fs] non-NULL *)
  s_bdev : Z
}.

(** [struct file], restricted likewise. *)
Record file := mk_file {
  f_ino : Z;                      (* identity of the open file *)
  f_op_fsync : bool;              (* [file->f_op && file->f_op->fsync] *)
  i_mode : Z;                     (* [f_path.dentry->d_inode->i_mode] *)
  f_mapping : option Z;           (* [NULL] is [None] *)
  d_sb : super_block              (* [f_dentry->d_sb] *)
}.

Inductive wb_reason := WB_REASON_SYNC.

(** Functions a [struct work_struct] can be initialised with. *)
Inductive work_func := work_do_sync_work.

(** ** Events: everything [fs/sync.c] asks of the rest of the kernel *)

Inductive event :=
| Ev_mutex_lock_sync_mutex
| Ev_mutex_unlock_sync_mutex
| Ev_store_sync_seq (v : Z)
| Ev_WARN
| Ev_trace_sys_sync
| Ev_trace_sys_sync_done
| Ev_wakeup_flusher_threads (nr_pages : Z) (reason : wb_reason)
| Ev_laptop_sync_completion
| Ev_quota_sync (sb : Z) (type : Z) (wait : Z)
| Ev_sync_inodes_sb (sb : Z)
| Ev_writeback_inodes_sb (sb : Z) (reason : wb_reason)
| Ev_sync_fs (sb : Z) (wait : Z)
| Ev_sync_blockdev (bdev : Z) (wait : Z)
| Ev_pr_info_force_sync
| Ev_kmalloc_work
| Ev_kfree (work : Z)
| Ev_printk (msg : string)
| Ev_fget (fd : Z)
| Ev_fput (f : Z)
| Ev_down_read_s_umount (sb : Z)
| Ev_up_read_s_umount (sb : Z)
| Ev_ktime_get
| Ev_pr_info_slow_fsync (nsec : Z)
| Ev_trace_vfs_fsync (f : Z)
| Ev_trace_vfs_fsync_done (f : Z)
| Ev_fsync (f : Z) (start end_ : Z) (datasync : Z)
| Ev_filemap_fdatawait_range (mapping : Z) (start end_ : Z)
| Ev_filemap_fdatawrite_range (mapping : Z) (start end_ : Z).

(** What an outside call returns, given the history before it. *)
Definition oracle := list event -> event -> Z.

(** ** Kernel state *)

Record kstate := mk_kstate {
  sync_seq : Z;                   (* [static unsigned long sync_seq] *)
  dyn_fsync_active : bool;
  early_suspend_active : bool;
  vfs_emergency_remount : Z;      (* [atomic_t] *)
  laptop_mode : Z;
  super_blocks : list super_block;
  fdtable : Z -> option file;
  workqueue : list (Z * work_func);
  klog : list event
}.

Definition set_sync_seq (v : Z) (st : kstate) : kstate :=
  mk_kstate v (dyn_fsync_active st) (early_suspend_active st)
            (vfs_emergency_remount st) (laptop_mode st) (super_blocks st)
            (fdtable st) (workqueue st) (klog st).

Definition set_workqueue (q : list (Z * work_func)) (st : kstate) : kstate :=
  mk_kstate (sync_seq st) (dyn_fsync_active st) (early_suspend_active st)
            (vfs_emergency_remount st) (laptop_mode st) (super_blocks st)
            (fdtable st) q (klog st).

Definition set_klog (l : list event) (st : kstate) : kstate :=
  mk_kstate (sync_seq st) (dyn_fsync_active st) (early_suspend_active st)
            (vfs_emergency_remount st) (laptop_mode st) (super_blocks st)
            (fdtable st) (workqueue st) l.

(** ** The monad of kernel code *)

Definition kernel (A : Type) : Type := kstate -> A * kstate.

Definition ret {A} (a : A) : kernel A := fun st => (a, st).

Definition bind {A B} (m : kernel A) (k : A -> kernel B) : kernel B :=
  fun st => let (a, st') := m st in k a st'.

Declare Scope kernel_scope.
Delimit Scope kernel_scope with kernel.
Notation "x <- m ;; k" := (bind m (fun x => k))
  (at level 61, m at next level, right associativity) : kernel_scope.
Notation "m ;; k" := (bind m (fun _ => k))
  (at level 61, right associativity) : kernel_scope.
Open Scope kernel_scope.

Definition get {A} (proj : kstate -> A) : kernel A := fun st => (proj st, st).

Definition when (b : bool) (m : kernel unit) : kernel unit :=
  if b then m else ret tt.

Section Sync.

Variable cfg : kconfig.
Variable extern : oracle.

(** A call out of [fs/sync.c] whose result is used or discarded by the
    caller: logged, and answered by the oracle. *)
Definition call (e : event) : kernel Z :=
  fun st => (extern (klog st) e, set_klog (klog st ++ [e]) st).

(** A call out of [fs/sync.c] that returns nothing. *)
Definition emit (e : event) : kernel unit :=
  fun st => (tt, set_klog (klog st ++ [e]) st).

Definition ulong : Z -> Z := Word.unsigned (BITS_PER_LONG cfg).

(** Modelled from the spec: the macro [ULONG_CMP_GE] is defined outside
    [fs/sync.c].  The comparison is "greater-or-equal" on the ring of
    [unsigned long] values, taken by a signed-difference trick: the
    unsigned subtraction is read as a signed number. *)
Definition ULONG_CMP_GE (a b : Z) : bool :=
  0 <=? Word.signed (BITS_PER_LONG cfg) (ulong (a - b)).

(** The kill switch of [CONFIG_DYNAMIC_FSYNC]:
    [likely(dyn_fsync_active && !early_suspend_active)], compiled in only
    under [#ifdef CONFIG_DYNAMIC_FSYNC]. *)
Definition dyn_fsync_gate (st : kstate) : bool :=
  CONFIG_DYNAMIC_FSYNC cfg
  && (dyn_fsync_active st && negb (early_suspend_active st)).

(** *** Volume flush *)

(** [static int __sync_filesystem(struct super_block *sb, int wait)] *)
Definition __sync_filesystem (sb : super_block) (wait : Z) : kernel Z :=
  if bdi_eqb (s_bdi sb) noop_backing_dev_info then ret 0
  else
    when (s_qcop_quota_sync sb)
         (_ <- call (Ev_quota_sync (s_dev sb) (-1) wait) ;; ret tt) ;;
    (if negb (wait =? 0)
     then emit (Ev_sync_inodes_sb (s_dev sb))
     else emit (Ev_writeback_inodes_sb (s_dev sb) WB_REASON_SYNC)) ;;
    when (s_op_sync_fs sb)
         (_ <- call (Ev_sync_fs (s_dev sb) wait) ;; ret tt) ;;
    call (Ev_sync_blockdev (s_bdev sb) wait).

(** [int sync_filesystem(struct super_block *sb)].  The [WARN_ON] tests
    that the caller holds [s_umount], as syncfs() does; it only prints a
    diagnostic, and the state of that lock is not part of the model. *)
Definition sync_filesystem (sb : super_block) : kernel Z :=
  if negb (Z.land (s_flags sb) MS_RDONLY =? 0) then ret 0
  else
    emergency <- get vfs_emergency_remount ;;
    r <- (if negb (emergency =? 0)
          then emit Ev_pr_info_force_sync ;; __sync_filesystem sb 1
          else __sync_filesystem sb 0) ;;
    if r <? 0 then ret r
    else __sync_filesystem sb 1.

(** [static void sync_one_sb(struct super_block *sb, void *arg)] *)
Definition sync_one_sb (sb : super_block) (arg : Z) : kernel unit :=
  when (Z.land (s_flags sb) MS_RDONLY =? 0)
       (_ <- __sync_filesystem sb arg ;; ret tt).

(** Modelled from the spec: [iterate_supers] belongs to the volume
    management code, outside [fs/sync.c]; it enumerates every mounted
    volume and calls the given function on each. *)
Fixpoint iterate_list (f : super_block -> Z -> kernel unit) (arg : Z)
         (l : list super_block) : kernel unit :=
  match l with
  | [] => ret tt
  | sb :: l' => f sb arg ;; iterate_list f arg l'
  end.

Definition iterate_supers (f : super_block -> Z -> kernel unit) (arg : Z)
  : kernel unit :=
  sbs <- get super_blocks ;; iterate_list f arg sbs.

(** [void sync_filesystems(int wait)] *)
Definition sync_filesystems (wait : Z) : kernel unit :=
  iterate_supers sync_one_sb wait.

(** [static void do_sync(void)] *)
Definition do_sync : kernel unit :=
  emit Ev_trace_sys_sync ;;
  emit (Ev_wakeup_flusher_threads 0 WB_REASON_SYNC) ;;
  sync_filesystems 0 ;;
  sync_filesystems 1 ;;
  lm <- get laptop_mode ;;
  when (negb (lm =? 0)) (emit Ev_laptop_sync_completion) ;;
  emit Ev_trace_sys_sync_done.

(** *** The coalescing protocol of sync() *)

(** [ACCESS_ONCE(sync_seq)++] *)
Definition inc_sync_seq : kernel unit :=
  fun st => let v := ulong (sync_seq st + 1) in
            (tt, set_klog (klog st ++ [Ev_store_sync_seq v]) (set_sync_seq v st)).

(** The threshold [(snap + 3) & ~0x1] in [unsigned long] arithmetic. *)
Definition sync_threshold (snap : Z) : Z :=
  Z.land (ulong (snap + 3)) (ulong (Z.lnot 1)).

(** [WARN_ON_ONCE(cond)]: a diagnostic when [cond] holds (printed the
    first time only), with no effect on the control flow. *)
Definition WARN_ON_ONCE (cond : bool) : kernel unit :=
  when cond (emit Ev_WARN).

(** [SYSCALL_DEFINE0(sync)], from [mutex_lock] on.  [snap] is the value
    the caller fetched from [sync_seq] before it took the mutex; other
    callers may have run their own critical sections in between.  The
    memory barriers order accesses between processors and have no
    counterpart here. *)
Definition sys_sync_locked (snap : Z) : kernel Z :=
  emit Ev_mutex_lock_sync_mutex ;;
  snap_done <- get sync_seq ;;
  if ULONG_CMP_GE snap_done (sync_threshold snap) then
    emit Ev_mutex_unlock_sync_mutex ;;
    ret 0
  else
    inc_sync_seq ;;
    started <- get sync_seq ;;
    WARN_ON_ONCE (negb (Z.land started 1 =? 1)) ;;
    do_sync ;;
    inc_sync_seq ;;
    finished <- get sync_seq ;;
    WARN_ON_ONCE (negb (Z.land finished 1 =? 0)) ;;
    emit Ev_mutex_unlock_sync_mutex ;;
    ret 0.

(** [SYSCALL_DEFINE0(sync)] when no other caller runs between the fetch of
    [snap] and the acquisition of the mutex. *)
Definition sys_sync : kernel Z :=
  snap <- get sync_seq ;;
  sys_sync_locked snap.

(** *** Emergency sync *)

(** [static void do_sync_work(struct work_struct *work)] *)
Definition do_sync_work (work : Z) : kernel unit :=
  sync_filesystems 0 ;;
  sync_filesystems 0 ;;
  emit (Ev_printk "Emergency Sync complete\n") ;;
  emit (Ev_kfree work).

(** Modelled from the spec: [schedule_work] belongs to the deferred-work
    infrastructure, outside [fs/sync.c]; it queues the task for a
    background worker and returns at once. *)
Definition schedule_work (work : Z) (fn : work_func) : kernel unit :=
  fun st => (tt, set_workqueue (workqueue st ++ [(work, fn)]) st).

(** [void emergency_sync(void)]: [kmalloc(..., GFP_ATOMIC)] answers with a
    pointer, [0] being [NULL]; [INIT_WORK] ties the work to [do_sync_work]. *)
Definition emergency_sync : kernel unit :=
  work <- call Ev_kmalloc_work ;;
  when (negb (work =? 0)) (schedule_work work work_do_sync_work).

(** What the background worker does with a queued work item. *)
Definition run_work (w : Z * work_func) : kernel unit :=
  match snd w with
  | work_do_sync_work => do_sync_work (fst w)
  end.

(** *** syncfs() *)

(** Modelled from the spec: [fget], [fget_light], [fput] and [fput_light]
    belong to the descriptor table code, outside [fs/sync.c]; a descriptor
    resolves to its open file or to [NULL]. *)
Definition fget (fd : Z) : kernel (option file) :=
  fun st => (fdtable st fd, set_klog (klog st ++ [Ev_fget fd]) st).

Definition fput (f : file) : kernel unit := emit (Ev_fput (f_ino f)).

(** [SYSCALL_DEFINE1(syncfs, int, fd)] *)
Definition sys_syncfs (fd : Z) : kernel Z :=
  file <- fget fd ;;
  match file with
  | None => ret (- EBADF)
  | Some f =>
      let sb := d_sb f in
      emit (Ev_down_read_s_umount (s_dev sb)) ;;
      r <- sync_filesystem sb ;;
      emit (Ev_up_read_s_umount (s_dev sb)) ;;
      fput f ;;
      ret r
  end.

(** *** fsync() and fdatasync() *)

(** [int vfs_fsync_range(struct file *file, loff_t start, loff_t end,
                         int datasync)] *)
Definition vfs_fsync_range (f : file) (start end_ : Z) (datasync : Z)
  : kernel Z :=
  gate <- get dyn_fsync_gate ;;
  if gate then ret 0
  else if negb (f_op_fsync f) then ret (- EINVAL)
  else
    emit (Ev_trace_vfs_fsync (f_ino f)) ;;
    err <- call (Ev_fsync (f_ino f) start end_ datasync) ;;
    emit (Ev_trace_vfs_fsync_done (f_ino f)) ;;
    ret err.

(** [int vfs_fsync(struct file *file, int datasync)] *)
Definition vfs_fsync (f : file) (datasync : Z) : kernel Z :=
  vfs_fsync_range f 0 LLONG_MAX datasync.

(** [static int do_fsync(unsigned int fd, int datasync)].  The path name
    obtained from [d_path] only feeds the diagnostic line and is left out
    of the event. *)
Definition do_fsync (fd : Z) (datasync : Z) : kernel Z :=
  file <- fget fd ;;
  match file with
  | None => ret (- EBADF)
  | Some f =>
      fsync_t <- call Ev_ktime_get ;;
      r <- vfs_fsync f datasync ;;
      fput f ;;
      now <- call Ev_ktime_get ;;
      let fsync_diff := Word.s64 (now - fsync_t) in
      when (5000000000 <=? fsync_diff)
           (emit (Ev_pr_info_slow_fsync fsync_diff)) ;;
      ret r
  end.

(** [SYSCALL_DEFINE1(fsync, unsigned int, fd)] *)
Definition sys_fsync (fd : Z) : kernel Z :=
  gate <- get dyn_fsync_gate ;;
  if gate then ret 0 else do_fsync fd 0.

(** [SYSCALL_DEFINE1(fdatasync, unsigned int, fd)]: the test of the kill
    switch is under [#if 0] here. *)
Definition sys_fdatasync (fd : Z) : kernel Z :=
  do_fsync fd 1.

(** *** sync_file_range() *)

Definition has_flag (flags bit : Z) : bool := negb (Z.land flags bit =? 0).

(** [0x100000000ULL << PAGE_CACHE_SHIFT] *)
Definition pgoff_limit : Z :=
  Word.u64 (Z.shiftl 4294967296 (PAGE_CACHE_SHIFT cfg)).

Inductive range_result :=
| Range_return (r : Z)                 (* [goto out] with [ret = r] *)
| Range_ok (nbytes endbyte : Z).       (* fall through to [fget_light] *)

(** The argument checks of [sync_file_range], from [ret = -EINVAL] down to
    the computation of the inclusive [endbyte].  [loff_t] is a signed 64
    bit integer and the kernel is built with wrapping signed arithmetic;
    the comparisons against the [unsigned long long] limit are unsigned. *)
Definition sync_file_range_check (offset nbytes flags : Z) : range_result :=
  if negb (Z.land flags (Word.u32 (Z.lnot VALID_FLAGS)) =? 0)
  then Range_return (- EINVAL)
  else
    let endbyte := Word.s64 (offset + nbytes) in
    if offset <? 0 then Range_return (- EINVAL)
    else if endbyte <? 0 then Range_return (- EINVAL)
    else if endbyte <? offset then Range_return (- EINVAL)
    else if (sizeof_pgoff_t cfg =? 4) && (pgoff_limit <=? Word.u64 offset)
    then Range_return 0
    else
      let nbytes :=
        if (sizeof_pgoff_t cfg =? 4) && (pgoff_limit <=? Word.u64 endbyte)
        then 0 else nbytes in
      let endbyte :=
        if nbytes =? 0 then LLONG_MAX else Word.s64 (endbyte - 1) in
      Range_ok nbytes endbyte.

(** The third phase: [if (flags & SYNC_FILE_RANGE_WAIT_AFTER)]. *)
Definition sync_file_range_wait_after (mapping offset endbyte flags r : Z)
  : kernel Z :=
  if has_flag flags SYNC_FILE_RANGE_WAIT_AFTER
  then call (Ev_filemap_fdatawait_range mapping offset endbyte)
  else ret r.

(** The second phase: [if (flags & SYNC_FILE_RANGE_WRITE)]. *)
Definition sync_file_range_write (mapping offset endbyte flags r : Z)
  : kernel Z :=
  if has_flag flags SYNC_FILE_RANGE_WRITE
  then
    r' <- call (Ev_filemap_fdatawrite_range mapping offset endbyte) ;;
    if r' <? 0 then ret r'
    else sync_file_range_wait_after mapping offset endbyte flags r'
  else sync_file_range_wait_after mapping offset endbyte flags r.

(** The three phases, from [ret = 0] down to the label [out_put]. *)
Definition sync_file_range_phases (mapping offset endbyte flags : Z)
  : kernel Z :=
  if has_flag flags SYNC_FILE_RANGE_WAIT_BEFORE
  then
    r <- call (Ev_filemap_fdatawait_range mapping offset endbyte) ;;
    if r <? 0 then ret r
    else sync_file_range_write mapping offset endbyte flags r
  else sync_file_range_write mapping offset endbyte flags 0.

(** [SYSCALL_DEFINE(sync_file_range)(int fd, loff_t offset, loff_t nbytes,
                                     unsigned int flags)] *)
Definition sys_sync_file_range (fd offset nbytes flags : Z) : kernel Z :=
  gate <- get dyn_fsync_gate ;;
  if gate then ret 0
  else
    match sync_file_range_check offset nbytes flags with
    | Range_return r => ret r
    | Range_ok _ endbyte =>
        file <- fget fd ;;
        match file with
        | None => ret (- EBADF)
        | Some f =>
            r <- (if negb (S_ISREG (i_mode f)) && negb (S_ISBLK (i_mode f)) &&
                     negb (S_ISDIR (i_mode f)) && negb (S_ISLNK (i_mode f))
                  then ret (- ESPIPE)
                  else
                    match f_mapping f with
                    | None => ret (- EINVAL)
                    | Some mapping =>
                        sync_file_range_phases mapping offset endbyte flags
                    end) ;;
            fput f ;;
            ret r
        end
    end.

(** [SYSCALL_DEFINE(sync_file_range2)(int fd, unsigned int flags,
                                      loff_t offset, loff_t nbytes)] *)
Definition sys_sync_file_range2 (fd flags offset nbytes : Z) : kernel Z :=
  gate <- get dyn_fsync_gate ;;
  if gate then ret 0 else sys_sync_file_range fd offset nbytes flags.

End Sync.

(** * The flush work as a sequence of events

    What the specification says a flush does, written as the list of calls
    it makes; the code above is shown below to produce exactly these. *)

Definition writable (sb : super_block) : bool :=
  Z.land (s_flags sb) MS_RDONLY =? 0.

Definition is_noop (sb : super_block) : bool :=
  bdi_eqb (s_bdi sb) noop_backing_dev_info.

(** One flush of one volume that is not the no-op volume: (a) the quota
    sync capability if present, (b) the dirty objects, synchronously if
    [wait] and as a background write-back otherwise, (c) the metadata
    flush hook if present, (d) the block device. *)
Definition volume_flush_events (sb : super_block) (wait : Z) : list event :=
  if is_noop sb then []
  else
    (if s_qcop_quota_sync sb then [Ev_quota_sync (s_dev sb) (-1) wait] else [])
    ++ [if wait =? 0
        then Ev_writeback_inodes_sb (s_dev sb) WB_REASON_SYNC
        else Ev_sync_inodes_sb (s_dev sb)]
    ++ (if s_op_sync_fs sb then [Ev_sync_fs (s_dev sb) wait] else [])
    ++ [Ev_sync_blockdev (s_bdev sb) wait].

(** What the flush of one volume gives back after the history [h]: the
    answer of the block-device flush, the last of its calls. *)
Definition volume_flush_result (extern : oracle) (sb : super_block) (wait : Z)
           (h : list event) : Z :=
  if is_noop sb then 0
  else extern (h ++ removelast (volume_flush_events sb wait))
              (Ev_sync_blockdev (s_bdev sb) wait).

(** One pass over all volumes: every mounted, writable volume is flushed. *)
Definition pass_events (wait : Z) (sbs : list super_block) : list event :=
  flat_map (fun sb => if writable sb then volume_flush_events sb wait else [])
           sbs.

(** The full flush pass of sync(): a nudge to the write-back threads, a
    best-effort pass over all volumes, then a blocking one. *)
Definition full_pass_events (st : kstate) : list event :=
  [Ev_trace_sys_sync; Ev_wakeup_flusher_threads 0 WB_REASON_SYNC]
  ++ pass_events 0 (super_blocks st)
  ++ pass_events 1 (super_blocks st)
  ++ (if laptop_mode st =? 0 then [] else [Ev_laptop_sync_completion])
  ++ [Ev_trace_sys_sync_done].

(** An event that belongs to a best-effort flush: it starts work and does
    not wait for it. *)
Definition nonwaiting (e : event) : bool :=
  match e with
  | Ev_quota_sync _ _ wait => wait =? 0
  | Ev_writeback_inodes_sb _ _ => true
  | Ev_sync_fs _ wait => wait =? 0
  | Ev_sync_blockdev _ wait => wait =? 0
  | _ => false
  end.

(** An event that hands data to storage or waits for it. *)
Definition is_flush_event (e : event) : bool :=
  match e with
  | Ev_wakeup_flusher_threads _ _ | Ev_quota_sync _ _ _ | Ev_sync_inodes_sb _
  | Ev_writeback_inodes_sb _ _ | Ev_sync_fs _ _ | Ev_sync_blockdev _ _
  | Ev_fsync _ _ _ _ | Ev_filemap_fdatawait_range _ _ _
  | Ev_filemap_fdatawrite_range _ _ _ => true
  | _ => false
  end.

(** The state after the events [evs] were appended to the log. *)
Definition logged (evs : list event) (st : kstate) : kstate :=
  set_klog (klog st ++ evs) st.

(** The state with the two flags of the kill switch set to [a] and [e]. *)
Definition set_dyn_fsync (a e : bool) (st : kstate) : kstate :=
  mk_kstate (sync_seq st) a e (vfs_emergency_remount st) (laptop_mode st)
            (super_blocks st) (fdtable st) (workqueue st) (klog st).

(** Kernel code that neither reads nor writes the flags of the kill
    switch: it runs the same whatever they are. *)
Definition switch_blind {A} (m : kernel A) : Prop :=
  forall a e st,
    m (set_dyn_fsync a e st) = (fst (m st), set_dyn_fsync a e (snd (m st))).

(** A flag word with a bit outside [VALID_FLAGS]. *)
Definition has_invalid_bit (flags : Z) : Prop :=
  exists i, 0 <= i /\ Z.testbit flags i = true /\ Z.testbit VALID_FLAGS i = false.

(** Kernel code that leaves the counter of sync() alone. *)
Definition keeps_sync_seq {A} (m : kernel A) : Prop :=
  forall st, sync_seq (snd (m st)) = sync_seq st.

(** The states in which a caller of sync() can find the kernel when it
    takes [sync_mutex]: [sync_seq] is a zero-initialised static of
    [fs/sync.c] that only the critical section of sync() writes, so that
    between two critical sections the rest of the state may change in any
    way and the counter does not. *)
Inductive reachable (cfg : kconfig) (extern : oracle) : kstate -> Prop :=
| reach_boot st :
    sync_seq st = 0 -> reachable cfg extern st
| reach_sync snap st :
    reachable cfg extern st ->
    reachable cfg extern (snd (sys_sync_locked cfg extern snap st))
| reach_other st st' :
    reachable cfg extern st -> sync_seq st' = sync_seq st ->
    reachable cfg extern st'.

(** The counter of sync() holds an [unsigned long] and is even whenever
    [sync_mutex] is free. *)
Definition seq_inv (cfg : kconfig) (st : kstate) : Prop :=
  0 <= sync_seq st < 2 ^ BITS_PER_LONG cfg /\ Z.even (sync_seq st) = true.

(** ** Sample configurations and states *)

(** A 32-bit build with 4 KiB pages and the kill switch compiled in, and a
    64-bit build without it. *)
Definition cfg_arm : kconfig := mk_kconfig 32 4 12 true.
Definition cfg_lp64 : kconfig := mk_kconfig 64 8 12 false.

Definition sb_data : super_block := mk_super_block 1 (bdi 1) 0 true true 100.
Definition sb_ro : super_block :=
  mk_super_block 2 (bdi 2) MS_RDONLY false true 200.
Definition sb_proc : super_block :=
  mk_super_block 3 noop_backing_dev_info 0 false false 0.

Definition file_reg : file := mk_file 10 true S_IFREG (Some 1000) sb_data.
Definition file_nofsync : file := mk_file 11 false S_IFREG (Some 1001) sb_data.
Definition file_fifo : file := mk_file 12 false 4096 None sb_proc.

Definition fd_sample (fd : Z) : option file :=
  if fd =? 3 then Some file_reg
  else if fd =? 4 then Some file_nofsync
  else if fd =? 5 then Some file_fifo
  else None.

(** The state at boot ([sync_seq] is a zero-initialised static) with three
    volumes mounted and three descriptors open. *)
Definition boot_state : kstate :=
  mk_kstate 0 false false 0 0 [sb_data; sb_ro; sb_proc] fd_sample [] [].

(** The same with a single volume. *)
Definition syncfs_state : kstate :=
  mk_kstate 0 false false 0 0 [sb_data] fd_sample [] [].

(** The same with the kill switch engaged. *)
Definition dyn_fsync_state : kstate :=
  mk_kstate 0 true false 0 0 [sb_data; sb_ro; sb_proc] fd_sample [] [].

(** An outside world in which every call succeeds and allocation fails,
    and one in which allocation succeeds. *)
Definition quiet : oracle := fun _ _ => 0.
Definition generous : oracle :=
  fun _ e => match e with Ev_kmalloc_work => 4096 | _ => 0 end.

(** An outside world in which the best-effort block-device flush fails with
    [-EIO]. *)
Definition failing_async_blockdev : oracle :=
  fun _ e => match e with
             | Ev_sync_blockdev _ wait => if wait =? 0 then -5 else 0
             | _ => 0
             end.

(** * Further code of [fs/sync.c] *)

(** Modelled from the spec: the open flags [O_DSYNC] and [__O_SYNC] come
    from a kernel header that is not part of the sources at hand; they
    carry their usual Linux values (octal 010000 and 04000000).  A file
    opened for synchronous writes has [O_DSYNC]; the strictest mode,
    [O_SYNC], has [__O_SYNC] as well. *)
Definition O_DSYNC : Z := 4096.
Definition __O_SYNC : Z := 1048576.

(** What [generic_write_sync] reads of a [struct file] beyond the fields
    above: the open flags, and whether the inode behind the mapping is
    to be written synchronously ([IS_SYNC(file->f_mapping->host)], a macro
    over the mount and inode flags). *)
Record written_file := mk_written_file {
  wf_file : file;
  f_flags : Z;
  host_is_sync : bool
}.

(** [int generic_write_sync(struct file *file, loff_t pos, loff_t count)] *)
Definition generic_write_sync (cfg : kconfig) (extern : oracle)
           (wf : written_file) (pos count : Z) : kernel Z :=
  if (Z.land (f_flags wf) O_DSYNC =? 0) && negb (host_is_sync wf)
  then ret 0
  else vfs_fsync_range cfg extern (wf_file wf) pos (Word.s64 (pos + count - 1))
                       (if negb (Z.land (f_flags wf) __O_SYNC =? 0)
                        then 0 else 1).

(** A file with a flush capability opened [O_SYNC], and one opened
    without any synchronous mode. *)
Definition wf_osync : written_file :=
  mk_written_file file_reg (Z.lor O_DSYNC __O_SYNC) false.
Definition wf_plain : written_file := mk_written_file file_reg 0 false.

(** ** The counter of sync() read off the log *)

Definition is_store (e : event) : bool :=
  match e with Ev_store_sync_seq _ => true | _ => false end.

(** How many times the counter was incremented in the course of [h]. *)
Definition increments (h : list event) : Z :=
  Z.of_nat (List.length (filter is_store h)).

(** The value of the counter after the history [h], when it was [v]
    before: every increment is logged with the value it stores. *)
Definition seq_after (v : Z) (h : list event) : Z :=
  fold_left (fun v e => match e with Ev_store_sync_seq x => x | _ => v end)
            h v.

(** The stores in [h] carry consecutive values of the counter, the first
    of them the successor of the residue of [n]. *)
Fixpoint consecutive (cfg : kconfig) (n : Z) (h : list event) : Prop :=
  match h with
  | [] => True
  | Ev_store_sync_seq v :: t =>
      v = Word.unsigned (BITS_PER_LONG cfg) (n + 1) /\ consecutive cfg (n + 1) t
  | _ :: t => consecutive cfg n t
  end.

(** The states the kernel can reach with the log as a faithful history:
    at boot the counter is 0 and nothing has happened; callers of sync()
    run their critical sections one at a time, each with the snapshot it
    fetched at some earlier moment; anything else that happens leaves the
    counter alone and adds events that are not stores to the counter. *)
Inductive history_reachable (cfg : kconfig) (extern : oracle)
  : kstate -> Prop :=
| hist_boot st :
    sync_seq st = 0 -> klog st = [] -> history_reachable cfg extern st
| hist_sync snap st :
    history_reachable cfg extern st ->
    history_reachable cfg extern (snd (sys_sync_locked cfg extern snap st))
| hist_other st st' evs :
    history_reachable cfg extern st ->
    sync_seq st' = sync_seq st ->
    klog st' = klog st ++ evs ->
    forallb (fun e => negb (is_store e)) evs = true ->
    history_reachable cfg extern st'.

(** What holds of a faithful history between two critical sections: the
    counter is the residue of the number of increments, that number is
    even, and the stores carry consecutive values. *)
Definition hist_inv (cfg : kconfig) (st : kstate) : Prop :=
  sync_seq st = ulong cfg (increments (klog st)) /\
  Z.even (increments (klog st)) = true /\
  consecutive cfg 0 (klog st).

(** The state after a first sync() at boot. *)
Definition synced_state : kstate :=
  snd (sys_sync_locked cfg_arm quiet 0 boot_state).

(** * Properties *)

(** ** The event log as the only thing flush code changes *)

Lemma logged_nil st : logged [] st = st.
Proof. destruct st; unfold logged, set_klog; simpl. now rewrite app_nil_r. Qed.

Lemma logged_logged e1 e2 st : logged e2 (logged e1 st) = logged (e1 ++ e2) st.
Proof. unfold logged, set_klog; simpl. now rewrite app_assoc. Qed.

Lemma klog_logged evs st : klog (logged evs st) = klog st ++ evs.
Proof. reflexivity. Qed.

(** Runs straight-line kernel code and puts the log in normal form. *)
Ltac run_kernel :=
  cbv [bind when call emit ret get logged set_klog set_sync_seq set_workqueue];
  cbn [fst snd negb andb orb app removelast
       sync_seq dyn_fsync_active early_suspend_active vfs_emergency_remount
       laptop_mode super_blocks fdtable workqueue klog];
  repeat (progress (rewrite <- ?app_assoc; cbn [app]));
  try reflexivity.

Lemma call_eq extern e st :
  call extern e st = (extern (klog st) e, logged [e] st).
Proof. reflexivity. Qed.

Lemma emit_eq e st : emit e st = (tt, logged [e] st).
Proof. reflexivity. Qed.

(** ** Machine arithmetic *)

Lemma unsigned_range w x : 0 <= w -> 0 <= Word.unsigned w x < 2 ^ w.
Proof. intros Hw. unfold Word.unsigned. apply Z.mod_pos_bound. lia. Qed.

Lemma unsigned_small w x : 0 <= x < 2 ^ w -> Word.unsigned w x = x.
Proof. intros H. unfold Word.unsigned. now apply Z.mod_small. Qed.

Lemma signed_small w x :
  0 < w -> - 2 ^ (w - 1) <= x < 2 ^ (w - 1) -> Word.signed w x = x.
Proof.
  intros Hw Hx. unfold Word.signed.
  assert (E : 2 ^ w = 2 * 2 ^ (w - 1)).
  { replace w with (Z.succ (w - 1)) at 1 by lia. rewrite Z.pow_succ_r; lia. }
  assert (0 < 2 ^ (w - 1)) by (apply Z.pow_pos_nonneg; lia).
  destruct (Z_lt_le_dec x 0) as [Hn | Hp].
  - assert (M : x mod 2 ^ w = x + 2 ^ w).
    { symmetry. apply Z.mod_unique with (q := -1); lia. }
    cbv zeta. rewrite M.
    destruct (Z.ltb_spec (x + 2 ^ w) (2 ^ (w - 1))); lia.
  - assert (M : x mod 2 ^ w = x) by (apply Z.mod_small; lia).
    cbv zeta. rewrite M.
    destruct (Z.ltb_spec x (2 ^ (w - 1))); lia.
Qed.

Lemma signed_mod w x :
  0 <= w -> Word.signed w (x mod 2 ^ w) = Word.signed w x.
Proof.
  intros Hw. unfold Word.signed.
  rewrite Z.mod_mod by (apply Z.pow_nonzero; lia). reflexivity.
Qed.

(** The macro read the other way round, as the kernel headers spell it:
    the unsigned difference is at most half the range. *)
Lemma ULONG_CMP_GE_half cfg a b :
  0 < BITS_PER_LONG cfg ->
  ULONG_CMP_GE cfg a b = (ulong cfg (a - b) <? 2 ^ (BITS_PER_LONG cfg - 1)).
Proof.
  intros Hw. unfold ULONG_CMP_GE, ulong, Word.signed, Word.unsigned.
  set (w := BITS_PER_LONG cfg) in *.
  rewrite Z.mod_mod by (apply Z.pow_nonzero; lia).
  assert (0 <= (a - b) mod 2 ^ w < 2 ^ w)
    by (apply Z.mod_pos_bound, Z.pow_pos_nonneg; lia).
  cbv zeta.
  destruct (Z.ltb_spec ((a - b) mod 2 ^ w) (2 ^ (w - 1)));
    [apply Z.leb_le | apply Z.leb_gt]; lia.
Qed.

(** C2: the greater-or-equal test of the coalescing decision is a signed
    reading of the unsigned difference.  Let [D] and [T] be the counter
    value and the threshold as true (unbounded) increment counts, of which
    the machine holds the residues on the ring of [unsigned long]; when
    their distance is less than half the range of the counter, wherever
    the residues sit with respect to a wrap of the counter, the test
    answers exactly whether [D] has advanced at least to [T]. *)
Theorem ULONG_CMP_GE_ring_correct cfg (D T : Z) :
  0 < BITS_PER_LONG cfg ->
  Z.abs (D - T) < 2 ^ (BITS_PER_LONG cfg - 1) ->
  ULONG_CMP_GE cfg (ulong cfg D) (ulong cfg T) = (T <=? D).
Proof.
  intros Hw Hd. unfold ULONG_CMP_GE, ulong, Word.unsigned.
  set (w := BITS_PER_LONG cfg) in *.
  rewrite <- Zminus_mod, signed_mod, signed_small by lia.
  destruct (Z.leb_spec T D); [apply Z.leb_le | apply Z.leb_gt]; lia.
Qed.

Lemma ULONG_CMP_GE_ring_correct_witness :
  0 < BITS_PER_LONG cfg_arm /\
  Z.abs ((2 ^ 32 + 2) - (2 ^ 32 - 2)) < 2 ^ (BITS_PER_LONG cfg_arm - 1) /\
  ULONG_CMP_GE cfg_arm (ulong cfg_arm (2 ^ 32 + 2)) (ulong cfg_arm (2 ^ 32 - 2))
  = ((2 ^ 32 - 2) <=? (2 ^ 32 + 2)).
Proof.
  split; [reflexivity | split; [reflexivity | ]].
  apply (ULONG_CMP_GE_ring_correct cfg_arm (2 ^ 32 + 2) (2 ^ 32 - 2));
    reflexivity.
Defined.

(** ** The volume flush produces the events of the specification *)

Lemma __sync_filesystem_eq extern sb wait st :
  __sync_filesystem extern sb wait st
  = (volume_flush_result extern sb wait (klog st),
     logged (volume_flush_events sb wait) st).
Proof.
  unfold __sync_filesystem, volume_flush_result, volume_flush_events, is_noop.
  destruct (bdi_eqb (s_bdi sb) noop_backing_dev_info).
  - unfold ret. now rewrite logged_nil.
  - destruct (s_qcop_quota_sync sb), (s_op_sync_fs sb), (wait =? 0);
      run_kernel.
Qed.

Lemma sync_one_sb_eq extern sb wait st :
  sync_one_sb extern sb wait st
  = (tt, logged (if writable sb then volume_flush_events sb wait else []) st).
Proof.
  unfold sync_one_sb, writable, when.
  destruct (Z.land (s_flags sb) MS_RDONLY =? 0).
  - unfold bind. now rewrite __sync_filesystem_eq.
  - unfold ret. now rewrite logged_nil.
Qed.

Lemma iterate_list_sync_one_sb extern wait l st :
  iterate_list (sync_one_sb extern) wait l st
  = (tt, logged (pass_events wait l) st).
Proof.
  revert st. induction l as [| sb l IH]; intros st; simpl.
  - unfold ret. now rewrite logged_nil.
  - unfold bind. rewrite sync_one_sb_eq, IH, logged_logged. reflexivity.
Qed.

Lemma sync_filesystems_eq extern wait st :
  sync_filesystems extern wait st
  = (tt, logged (pass_events wait (super_blocks st)) st).
Proof.
  unfold sync_filesystems, iterate_supers, bind, get.
  apply iterate_list_sync_one_sb.
Qed.

Lemma do_sync_eq extern st :
  do_sync extern st = (tt, logged (full_pass_events st) st).
Proof.
  unfold do_sync, full_pass_events, bind, get, when.
  rewrite !emit_eq, sync_filesystems_eq, sync_filesystems_eq.
  cbn [super_blocks logged set_klog laptop_mode].
  destruct (laptop_mode st =? 0); cbn [negb]; unfold ret;
    rewrite ?emit_eq, !logged_logged; reflexivity.
Qed.

(** ** sync(): the coalescing protocol *)

Lemma pow2_double w : 0 < w -> 2 ^ w = 2 * 2 ^ (w - 1).
Proof.
  intros Hw. replace w with (Z.succ (w - 1)) at 1 by lia.
  rewrite Z.pow_succ_r; lia.
Qed.

(** [x & ~0x1] on [unsigned long] rounds [x] down to the even number below. *)
Lemma sync_threshold_even cfg snap :
  0 < BITS_PER_LONG cfg ->
  sync_threshold cfg snap = 2 * (ulong cfg (snap + 3) / 2).
Proof.
  intros Hw. unfold sync_threshold, ulong, Word.unsigned.
  set (w := BITS_PER_LONG cfg) in *.
  set (x := (snap + 3) mod 2 ^ w).
  assert (Hx : x mod 2 ^ w = x) by (apply Z.mod_mod, Z.pow_nonzero; lia).
  rewrite <- (Z.land_ones (Z.lnot 1) w) by lia.
  rewrite (Z.land_comm (Z.lnot 1)), Z.land_assoc, Z.land_ones, Hx by lia.
  rewrite <- Z.ldiff_land.
  change 1 with (Z.ones 1) at 1.
  rewrite Z.ldiff_ones_r, Z.shiftl_mul_pow2, Z.shiftr_div_pow2 by lia.
  change (2 ^ 1) with 2. lia.
Qed.

Lemma land_1_odd x : Z.land x 1 = if Z.odd x then 1 else 0.
Proof.
  change 1 with (Z.ones 1) at 1. rewrite Z.land_ones by lia.
  change (2 ^ 1) with 2. apply Zmod_odd.
Qed.

Lemma even_next_in_range w x :
  0 < w -> 0 <= x < 2 ^ w -> Z.even x = true ->
  x + 1 < 2 ^ w /\ Z.odd (x + 1) = true /\
  Z.even (Word.unsigned w (x + 1 + 1)) = true.
Proof.
  intros Hw Hx He. apply Z.even_spec in He. destruct He as [k Hk].
  pose proof (pow2_double w Hw) as E.
  assert (0 < 2 ^ (w - 1)) by (apply Z.pow_pos_nonneg; lia).
  split; [lia | split].
  - rewrite Z.add_1_r, Z.odd_succ. apply Z.even_spec. now exists k.
  - unfold Word.unsigned.
    destruct (Z.eq_dec (x + 2) (2 ^ w)) as [Ew | Nw].
    + replace (x + 1 + 1) with (2 ^ w) by lia.
      rewrite Z.mod_same by lia. reflexivity.
    + rewrite Z.mod_small by lia. apply Z.even_spec. exists (k + 1). lia.
Qed.

Lemma inc_sync_seq_eq cfg st :
  inc_sync_seq cfg st
  = (tt, logged [Ev_store_sync_seq (ulong cfg (sync_seq st + 1))]
                (set_sync_seq (ulong cfg (sync_seq st + 1)) st)).
Proof. reflexivity. Qed.

Lemma WARN_ON_ONCE_false st : WARN_ON_ONCE false st = (tt, st).
Proof. reflexivity. Qed.

(** The two ways through the critical section of sync(); the assertions
    on the parity of the counter do not fire. *)
Lemma sys_sync_locked_spec cfg extern snap st :
  0 < BITS_PER_LONG cfg ->
  seq_inv cfg st ->
  let done := sync_seq st in
  let T := 2 * (ulong cfg (snap + 3) / 2) in
  sync_threshold cfg snap = T /\
  fst (sys_sync_locked cfg extern snap st) = 0 /\
  if ULONG_CMP_GE cfg done T
  then snd (sys_sync_locked cfg extern snap st)
       = logged [Ev_mutex_lock_sync_mutex; Ev_mutex_unlock_sync_mutex] st
  else Z.odd (done + 1) = true /\
       Z.even (ulong cfg (done + 1 + 1)) = true /\
       snd (sys_sync_locked cfg extern snap st)
       = logged ([Ev_mutex_lock_sync_mutex; Ev_store_sync_seq (done + 1)]
                 ++ full_pass_events st
                 ++ [Ev_store_sync_seq (ulong cfg (done + 1 + 1));
                     Ev_mutex_unlock_sync_mutex])
                (set_sync_seq (ulong cfg (done + 1 + 1)) st).
Proof.
  intros Hw [Hr He] done T.
  pose proof (sync_threshold_even cfg snap Hw) as HT. fold T in HT.
  destruct (even_next_in_range _ _ Hw Hr He) as (Hlt & Hodd & Heven).
  fold done in Hlt, Hodd, Heven.
  assert (Hinc : ulong cfg (done + 1) = done + 1).
  { apply unsigned_small. unfold done in *. lia. }
  split; [exact HT | ].
  unfold sys_sync_locked, bind, get.
  rewrite emit_eq. cbn [sync_seq logged set_klog]. fold done. rewrite HT.
  destruct (ULONG_CMP_GE cfg done T).
  - split; [reflexivity | ]. run_kernel.
  - rewrite inc_sync_seq_eq. cbn [sync_seq logged set_klog set_sync_seq].
    fold done. rewrite Hinc, land_1_odd, Hodd.
    change (negb (1 =? 1)) with false. rewrite WARN_ON_ONCE_false.
    rewrite do_sync_eq, inc_sync_seq_eq.
    cbn [sync_seq logged set_klog set_sync_seq]. fold done.
    rewrite land_1_odd, <- Z.negb_even. unfold ulong in Heven |- *.
    rewrite Heven. change (negb (0 =? 0)) with false.
    rewrite WARN_ON_ONCE_false, emit_eq. unfold ret, full_pass_events.
    cbn [fst snd laptop_mode super_blocks set_sync_seq set_klog logged klog].
    repeat (split; [reflexivity | ]).
    run_kernel.
Qed.

(** The invariant of the counter holds at boot and across every sync(). *)
Lemma seq_inv_boot cfg st :
  0 < BITS_PER_LONG cfg -> sync_seq st = 0 -> seq_inv cfg st.
Proof.
  intros Hw E. unfold seq_inv. rewrite E. split; [ | reflexivity].
  assert (0 < 2 ^ BITS_PER_LONG cfg) by (apply Z.pow_pos_nonneg; lia). lia.
Qed.

Lemma sys_sync_locked_seq_inv cfg extern snap st :
  0 < BITS_PER_LONG cfg -> seq_inv cfg st ->
  seq_inv cfg (snd (sys_sync_locked cfg extern snap st)).
Proof.
  intros Hw Hi.
  destruct (sys_sync_locked_spec cfg extern snap st Hw Hi) as (_ & _ & H).
  destruct (ULONG_CMP_GE cfg (sync_seq st) _).
  - rewrite H. exact Hi.
  - destruct H as (_ & He & ->). split; [ | exact He].
    apply unsigned_range. lia.
Qed.

Lemma reachable_seq_inv cfg extern st :
  0 < BITS_PER_LONG cfg -> reachable cfg extern st -> seq_inv cfg st.
Proof.
  intros Hw Hr. induction Hr as [st E | snap st _ IH | st st' _ IH E].
  - now apply seq_inv_boot.
  - now apply sys_sync_locked_seq_inv.
  - unfold seq_inv in *. now rewrite E.
Qed.

(** C1: the critical section of sync().  With [snap] the counter as read
    before the mutex was taken and [done] as read under the mutex, the
    threshold is [snap + 3] rounded down to even; when [done] has reached it
    on the ring the call only takes and releases the mutex, the counter
    and everything else untouched; otherwise the counter goes to
    [done + 1], which is odd, the full flush pass runs, the counter is
    incremented once more, which makes it even again, and the mutex is
    released last.  The call returns 0 either way. *)
Theorem sys_sync_coalescing cfg extern snap st :
  0 < BITS_PER_LONG cfg ->
  reachable cfg extern st ->
  let done := sync_seq st in
  let T := 2 * (ulong cfg (snap + 3) / 2) in
  sync_threshold cfg snap = T /\
  fst (sys_sync_locked cfg extern snap st) = 0 /\
  if ULONG_CMP_GE cfg done T
  then snd (sys_sync_locked cfg extern snap st)
       = logged [Ev_mutex_lock_sync_mutex; Ev_mutex_unlock_sync_mutex] st
  else Z.odd (done + 1) = true /\
       Z.even (ulong cfg (done + 1 + 1)) = true /\
       snd (sys_sync_locked cfg extern snap st)
       = logged ([Ev_mutex_lock_sync_mutex; Ev_store_sync_seq (done + 1)]
                 ++ full_pass_events st
                 ++ [Ev_store_sync_seq (ulong cfg (done + 1 + 1));
                     Ev_mutex_unlock_sync_mutex])
                (set_sync_seq (ulong cfg (done + 1 + 1)) st).
Proof.
  intros Hw Hr. apply sys_sync_locked_spec; [exact Hw | ].
  exact (reachable_seq_inv cfg extern st Hw Hr).
Qed.

Lemma sys_sync_coalescing_witness :
  0 < BITS_PER_LONG cfg_arm /\
  reachable cfg_arm quiet boot_state /\
  fst (sys_sync_locked cfg_arm quiet 0 boot_state) = 0.
Proof.
  assert (Hw : 0 < BITS_PER_LONG cfg_arm) by reflexivity.
  assert (Hr : reachable cfg_arm quiet boot_state)
    by (apply reach_boot; reflexivity).
  split; [exact Hw | split; [exact Hr | ]].
  exact (proj1 (proj2 (sys_sync_coalescing cfg_arm quiet 0 boot_state Hw Hr))).
Defined.

(** A first sync() after boot flushes; a second one that fetched its
    snapshot before the first ran is satisfied by it. *)
Example sys_sync_twice :
  let st1 := snd (sys_sync_locked cfg_arm quiet 0 boot_state) in
  sync_seq st1 = 2 /\
  sys_sync_locked cfg_arm quiet 0 st1
  = (0, logged [Ev_mutex_lock_sync_mutex; Ev_mutex_unlock_sync_mutex] st1).
Proof. split; vm_compute; reflexivity. Qed.


(** When nobody else runs between the fetch of [snap] and the mutex, the
    whole of sync() is its critical section at [snap = sync_seq]. *)
Lemma sys_sync_eq cfg extern st :
  sys_sync cfg extern st = sys_sync_locked cfg extern (sync_seq st) st.
Proof. reflexivity. Qed.

(** ** Only sync() writes the counter *)

Lemma keeps_ret {A} (a : A) : keeps_sync_seq (ret a).
Proof. intros st. reflexivity. Qed.

Lemma keeps_bind {A B} (m : kernel A) (k : A -> kernel B) :
  keeps_sync_seq m -> (forall a, keeps_sync_seq (k a)) ->
  keeps_sync_seq (bind m k).
Proof.
  intros Hm Hk st. unfold bind. specialize (Hm st).
  destruct (m st) as [a st']. cbn [snd] in Hm. rewrite <- Hm. apply Hk.
Qed.

Lemma keeps_when b m : keeps_sync_seq m -> keeps_sync_seq (when b m).
Proof. intros H. destruct b; [exact H | apply keeps_ret]. Qed.

Lemma keeps_logged {A} (m : kernel A) (r : kstate -> A)
      (evs : kstate -> list event) :
  (forall st, m st = (r st, logged (evs st) st)) -> keeps_sync_seq m.
Proof. intros H st. now rewrite H. Qed.

Create HintDb keeps.

Ltac keeps :=
  repeat first
    [ solve [auto with keeps]
    | apply keeps_bind; [ | intros ? ]
    | apply keeps_when
    | apply keeps_ret
    | match goal with
      | |- keeps_sync_seq (if ?b then _ else _) => destruct b
      | |- keeps_sync_seq (match ?o with Some _ => _ | None => _ end) =>
          destruct o
      | |- keeps_sync_seq (match ?o with
                           | Range_return _ => _ | Range_ok _ _ => _ end) =>
          destruct o
      end
    | (intros ?; reflexivity) ].

Lemma keeps___sync_filesystem extern sb wait :
  keeps_sync_seq (__sync_filesystem extern sb wait).
Proof. exact (keeps_logged _ _ _ (__sync_filesystem_eq extern sb wait)). Qed.

Lemma keeps_sync_filesystems extern wait :
  keeps_sync_seq (sync_filesystems extern wait).
Proof. exact (keeps_logged _ _ _ (sync_filesystems_eq extern wait)). Qed.

#[local] Hint Resolve keeps___sync_filesystem keeps_sync_filesystems : keeps.

Lemma keeps_sys_syncfs extern fd : keeps_sync_seq (sys_syncfs extern fd).
Proof. unfold sys_syncfs, sync_filesystem, fput. keeps. Qed.

Lemma keeps_do_fsync cfg extern fd datasync :
  keeps_sync_seq (do_fsync cfg extern fd datasync).
Proof. unfold do_fsync, vfs_fsync, vfs_fsync_range, fput. keeps. Qed.

#[local] Hint Resolve keeps_do_fsync : keeps.

Lemma keeps_sys_fsync cfg extern fd : keeps_sync_seq (sys_fsync cfg extern fd).
Proof. unfold sys_fsync. keeps. Qed.

Lemma keeps_sys_fdatasync cfg extern fd :
  keeps_sync_seq (sys_fdatasync cfg extern fd).
Proof. unfold sys_fdatasync. keeps. Qed.

Lemma keeps_sys_sync_file_range cfg extern fd offset nbytes flags :
  keeps_sync_seq (sys_sync_file_range cfg extern fd offset nbytes flags).
Proof.
  unfold sys_sync_file_range, sync_file_range_phases, sync_file_range_write,
    sync_file_range_wait_after, fput.
  keeps.
Qed.

#[local] Hint Resolve keeps_sys_sync_file_range : keeps.

Lemma keeps_sys_sync_file_range2 cfg extern fd flags offset nbytes :
  keeps_sync_seq (sys_sync_file_range2 cfg extern fd flags offset nbytes).
Proof. unfold sys_sync_file_range2. keeps. Qed.

Lemma keeps_emergency_sync extern : keeps_sync_seq (emergency_sync extern).
Proof. unfold emergency_sync. keeps. Qed.

Lemma keeps_run_work extern w : keeps_sync_seq (run_work extern w).
Proof.
  destruct w as [work []]. unfold run_work, do_sync_work. cbn [fst snd]. keeps.
Qed.

(** Every other entry point of [fs/sync.c] is a step of the kind
    [reach_other]. *)
Lemma reachable_keeps {A} cfg extern (m : kernel A) st :
  keeps_sync_seq m -> reachable cfg extern st -> reachable cfg extern (snd (m st)).
Proof. intros Hk Hr. apply (reach_other cfg extern st); [exact Hr | apply Hk]. Qed.

(** ** The volume flush *)

Lemma volume_flush_events_nonwaiting sb :
  forallb nonwaiting (volume_flush_events sb 0) = true.
Proof.
  unfold volume_flush_events.
  destruct (is_noop sb), (s_qcop_quota_sync sb), (s_op_sync_fs sb); reflexivity.
Qed.

Lemma pass_events_nonwaiting sbs : forallb nonwaiting (pass_events 0 sbs) = true.
Proof.
  unfold pass_events. induction sbs as [| sb l IH]; [reflexivity | ].
  cbn [flat_map]. rewrite forallb_app, IH, andb_true_r.
  destruct (writable sb); [apply volume_flush_events_nonwaiting | reflexivity].
Qed.

Lemma sync_filesystem_rdonly extern sb st :
  writable sb = false -> sync_filesystem extern sb st = (0, st).
Proof. unfold writable, sync_filesystem. now intros ->. Qed.

(** C6: one flush of one volume.  The no-op volume gives 0 and calls
    nothing; a read-only volume gives 0 (from [sync_filesystem]) or is
    skipped (by [sync_one_sb]) and calls nothing; on any other volume the
    quota sync if present, the write-back of the inodes and the metadata
    hook if present are called first, in this order and whatever they
    answer, then the block device is flushed, and what the block-device
    flush answers is what the volume flush returns. *)
Theorem volume_flush_returns_blockdev_result extern sb wait st :
  let early :=
    (if s_qcop_quota_sync sb then [Ev_quota_sync (s_dev sb) (-1) wait] else [])
    ++ [if wait =? 0
        then Ev_writeback_inodes_sb (s_dev sb) WB_REASON_SYNC
        else Ev_sync_inodes_sb (s_dev sb)]
    ++ (if s_op_sync_fs sb then [Ev_sync_fs (s_dev sb) wait] else []) in
  __sync_filesystem extern sb wait st
  = (if bdi_eqb (s_bdi sb) noop_backing_dev_info
     then (0, st)
     else (extern (klog st ++ early) (Ev_sync_blockdev (s_bdev sb) wait),
           logged (early ++ [Ev_sync_blockdev (s_bdev sb) wait]) st))
  /\ (Z.land (s_flags sb) MS_RDONLY <> 0 ->
      sync_filesystem extern sb st = (0, st) /\
      sync_one_sb extern sb wait st = (tt, st)).
Proof.
  intros early. split.
  - rewrite __sync_filesystem_eq.
    unfold volume_flush_result, volume_flush_events, is_noop. subst early.
    destruct (bdi_eqb (s_bdi sb) noop_backing_dev_info);
      [now rewrite logged_nil | ].
    destruct (s_qcop_quota_sync sb), (s_op_sync_fs sb), (wait =? 0);
      reflexivity.
  - intros Hro. apply Z.eqb_neq in Hro. split.
    + now apply sync_filesystem_rdonly.
    + rewrite sync_one_sb_eq. unfold writable. rewrite Hro.
      now rewrite logged_nil.
Qed.

Lemma volume_flush_returns_blockdev_result_witness :
  Z.land (s_flags sb_ro) MS_RDONLY <> 0 /\
  sync_filesystem quiet sb_ro boot_state = (0, boot_state) /\
  sync_one_sb quiet sb_ro 1 boot_state = (tt, boot_state).
Proof.
  assert (H : Z.land (s_flags sb_ro) MS_RDONLY <> 0) by discriminate.
  split; [exact H | ].
  exact (proj2 (volume_flush_returns_blockdev_result quiet sb_ro 1 boot_state) H).
Defined.

(** ** emergency_sync() *)

Lemma do_sync_work_eq extern work st :
  do_sync_work extern work st
  = (tt, logged (pass_events 0 (super_blocks st)
                 ++ pass_events 0 (super_blocks st)
                 ++ [Ev_printk "Emergency Sync complete\n"; Ev_kfree work]) st).
Proof.
  unfold do_sync_work, bind.
  rewrite !sync_filesystems_eq, !emit_eq, !logged_logged.
  cbn [super_blocks logged set_klog]. now rewrite <- ?app_assoc.
Qed.

(** C9: emergency_sync() returns nothing, so no error can reach its caller.
    When the allocation of the work item succeeds, the item is queued with
    [do_sync_work] as its function, and the background worker that runs it
    makes two passes over all volumes, every call of which is of the
    non-waiting kind, prints the completion line and frees the item.  When
    the allocation fails, nothing is queued and nothing else happens. *)
Theorem emergency_sync_fire_and_forget extern st :
  let work := extern (klog st) Ev_kmalloc_work in
  emergency_sync extern st
  = (tt, if work =? 0
         then logged [Ev_kmalloc_work] st
         else set_workqueue (workqueue st ++ [(work, work_do_sync_work)])
                            (logged [Ev_kmalloc_work] st))
  /\ (forall st',
       run_work extern (work, work_do_sync_work) st'
       = (tt, logged (pass_events 0 (super_blocks st')
                      ++ pass_events 0 (super_blocks st')
                      ++ [Ev_printk "Emergency Sync complete\n"; Ev_kfree work])
                     st'))
  /\ (forall sbs, forallb nonwaiting (pass_events 0 sbs) = true).
Proof.
  intros work. split; [ | split].
  - unfold emergency_sync, bind, when, schedule_work. rewrite call_eq.
    cbn [klog]. fold work. destruct (work =? 0); reflexivity.
  - intros st'. unfold run_work. cbn [fst snd]. apply do_sync_work_eq.
  - apply pass_events_nonwaiting.
Qed.

(** An emergency sync whose allocation succeeds, and the work it queued;
    one whose allocation fails. *)
Example emergency_sync_queued :
  snd (emergency_sync generous boot_state)
  = set_workqueue [(4096, work_do_sync_work)]
                  (logged [Ev_kmalloc_work] boot_state)
  /\ run_work generous (4096, work_do_sync_work) boot_state
     = (tt, logged [Ev_quota_sync 1 (-1) 0;
                    Ev_writeback_inodes_sb 1 WB_REASON_SYNC;
                    Ev_sync_fs 1 0; Ev_sync_blockdev 100 0;
                    Ev_quota_sync 1 (-1) 0;
                    Ev_writeback_inodes_sb 1 WB_REASON_SYNC;
                    Ev_sync_fs 1 0; Ev_sync_blockdev 100 0;
                    Ev_printk "Emergency Sync complete\n"; Ev_kfree 4096]
                   boot_state).
Proof. split; reflexivity. Qed.

Example emergency_sync_dropped :
  emergency_sync quiet boot_state = (tt, logged [Ev_kmalloc_work] boot_state).
Proof. reflexivity. Qed.

(** ** sync_filesystem() and syncfs() *)

Lemma sync_filesystem_eq extern sb st :
  writable sb = true ->
  let pre :=
    if vfs_emergency_remount st =? 0 then [] else [Ev_pr_info_force_sync] in
  let wait1 := if vfs_emergency_remount st =? 0 then 0 else 1 in
  let first := pre ++ volume_flush_events sb wait1 in
  let r1 := volume_flush_result extern sb wait1 (klog st ++ pre) in
  sync_filesystem extern sb st
  = if r1 <? 0
    then (r1, logged first st)
    else (volume_flush_result extern sb 1 (klog st ++ first),
          logged (first ++ volume_flush_events sb 1) st).
Proof.
  intros Hw pre wait1 first r1. unfold sync_filesystem.
  unfold writable in Hw. rewrite Hw. cbn [negb].
  unfold bind, get. subst first r1 wait1 pre.
  destruct (vfs_emergency_remount st =? 0); cbn [negb].
  - rewrite __sync_filesystem_eq, app_nil_r. cbn [app].
    destruct (volume_flush_result extern sb 0 (klog st) <? 0);
      [reflexivity | ].
    now rewrite __sync_filesystem_eq, logged_logged.
  - rewrite emit_eq, __sync_filesystem_eq, logged_logged, klog_logged.
    destruct (volume_flush_result extern sb 1 (klog st ++ _) <? 0);
      [reflexivity | ].
    rewrite __sync_filesystem_eq, logged_logged, klog_logged.
    now rewrite <- ?app_assoc.
Qed.

(** C10: the two passes of [sync_filesystem] on a writable volume, and
    syncfs() around them.  The first pass is best-effort (it is run in wait
    mode only while an emergency remount is in progress); when it returns a
    negative value, that value is returned and no further pass is made, so
    that outside an emergency remount every call made for the volume was
    of the non-waiting kind; the final, blocking pass is made exactly when
    the first pass returned a non-negative value, and its result is then
    the result of the call.  syncfs() hands the result on unchanged. *)
Theorem sync_filesystem_first_pass_error extern fd f st :
  fdtable st fd = Some f ->
  Z.land (s_flags (d_sb f)) MS_RDONLY = 0 ->
  let sb := d_sb f in
  let emergency := negb (vfs_emergency_remount st =? 0) in
  let pre := if emergency then [Ev_pr_info_force_sync] else [] in
  let first := pre ++ volume_flush_events sb (if emergency then 1 else 0) in
  let entry := [Ev_fget fd; Ev_down_read_s_umount (s_dev sb)] in
  let leave := [Ev_up_read_s_umount (s_dev sb); Ev_fput (f_ino f)] in
  (forall s,
     vfs_emergency_remount s = vfs_emergency_remount st ->
     let r1 := volume_flush_result extern sb (if emergency then 1 else 0)
                                   (klog s ++ pre) in
     sync_filesystem extern sb s
     = if r1 <? 0
       then (r1, logged first s)
       else (volume_flush_result extern sb 1 (klog s ++ first),
             logged (first ++ volume_flush_events sb 1) s))
  /\ (emergency = false -> forallb nonwaiting first = true)
  /\ sys_syncfs extern fd st
     = (fst (sync_filesystem extern sb (logged entry st)),
        logged leave (snd (sync_filesystem extern sb (logged entry st)))).
Proof.
  intros Hfd Hw sb emergency pre first entry leave.
  assert (Hw' : writable sb = true) by (now apply Z.eqb_eq).
  split; [ | split].
  - intros s Hs r1. rewrite (sync_filesystem_eq extern sb s Hw').
    subst r1 first pre emergency. rewrite Hs.
    destruct (vfs_emergency_remount st =? 0); reflexivity.
  - intros He. subst first pre. rewrite He. cbn [app].
    apply volume_flush_events_nonwaiting.
  - unfold sys_syncfs, bind, fget, fput. rewrite Hfd. fold sb.
    rewrite emit_eq.
    change (set_klog (klog st ++ [Ev_fget fd]) st) with (logged [Ev_fget fd] st).
    rewrite logged_logged. cbn [app]. fold entry.
    destruct (sync_filesystem extern sb (logged entry st)) as [r s'].
    cbn [fst snd]. rewrite !emit_eq, logged_logged. reflexivity.
Qed.

Lemma sync_filesystem_first_pass_error_witness :
  fdtable syncfs_state 3 = Some file_reg /\
  Z.land (s_flags (d_sb file_reg)) MS_RDONLY = 0 /\
  sys_syncfs failing_async_blockdev 3 syncfs_state
  = (fst (sync_filesystem failing_async_blockdev sb_data
            (logged [Ev_fget 3; Ev_down_read_s_umount 1] syncfs_state)),
     logged [Ev_up_read_s_umount 1; Ev_fput 10]
       (snd (sync_filesystem failing_async_blockdev sb_data
               (logged [Ev_fget 3; Ev_down_read_s_umount 1] syncfs_state)))).
Proof.
  assert (H1 : fdtable syncfs_state 3 = Some file_reg) by reflexivity.
  assert (H2 : Z.land (s_flags (d_sb file_reg)) MS_RDONLY = 0) by reflexivity.
  split; [exact H1 | split; [exact H2 | ]].
  exact (proj2 (proj2 (sync_filesystem_first_pass_error
                         failing_async_blockdev 3 file_reg syncfs_state H1 H2))).
Defined.

(** A run in which syncfs() fails with the error of the best-effort pass
    and the volume never saw a blocking call. *)
Example syncfs_error_without_blocking_pass :
  sys_syncfs failing_async_blockdev 3 syncfs_state
  = (-5, logged [Ev_fget 3; Ev_down_read_s_umount 1;
                 Ev_quota_sync 1 (-1) 0;
                 Ev_writeback_inodes_sb 1 WB_REASON_SYNC;
                 Ev_sync_fs 1 0; Ev_sync_blockdev 100 0;
                 Ev_up_read_s_umount 1; Ev_fput 10] syncfs_state).
Proof. reflexivity. Qed.

(** ** sync_file_range(): the argument checks *)

Lemma u32_testbit_lt flags i :
  Word.is_u32 flags -> 0 <= i -> Z.testbit flags i = true -> i < 32.
Proof.
  intros [H0 H1] Hi Hb.
  destruct (Z_lt_le_dec i 32) as [ | Hge]; [assumption | exfalso].
  destruct (Z.eq_dec flags 0) as [-> | Hnz].
  - now rewrite Z.bits_0 in Hb.
  - rewrite Z.bits_above_log2 in Hb; [discriminate | lia | ].
    assert (Z.log2 flags < 32) by (apply Z.log2_lt_pow2; lia). lia.
Qed.

Lemma invalid_flags_detected flags :
  Word.is_u32 flags -> has_invalid_bit flags ->
  (Z.land flags (Word.u32 (Z.lnot VALID_FLAGS)) =? 0) = false.
Proof.
  intros Hu (i & Hi & Hb & Hv). apply Z.eqb_neq. intros E.
  pose proof (u32_testbit_lt flags i Hu Hi Hb) as Hlt.
  assert (F : Z.testbit (Z.land flags (Word.u32 (Z.lnot VALID_FLAGS))) i = false)
    by (rewrite E; apply Z.bits_0).
  unfold Word.u32, Word.unsigned in F.
  rewrite <- Z.land_ones in F by lia.
  rewrite !Z.land_spec, Z.lnot_spec, Hb, Hv, Z.ones_spec_low in F by lia.
  discriminate.
Qed.

Lemma s64_small x : Word.is_s64 x -> Word.s64 x = x.
Proof. intros H. apply signed_small; [lia | exact H]. Qed.

Lemma s64_wrap_high x :
  2 ^ 63 <= x < 2 ^ 64 -> Word.s64 x = x - 2 ^ 64.
Proof.
  intros H. unfold Word.s64, Word.signed. cbv zeta.
  rewrite Z.mod_small by lia.
  change (64 - 1) with 63.
  destruct (Z.ltb_spec x (2 ^ 63)); lia.
Qed.

(** Arguments that pass the overflow checks are a non-negative offset and a
    non-negative length whose sum fits [loff_t]. *)
Lemma range_checks_passed offset nbytes :
  Word.is_s64 offset -> Word.is_s64 nbytes ->
  0 <= offset -> 0 <= Word.s64 (offset + nbytes) ->
  offset <= Word.s64 (offset + nbytes) ->
  0 <= nbytes /\ Word.s64 (offset + nbytes) = offset + nbytes.
Proof.
  unfold Word.is_s64. intros Ho Hn H0 H1 H2.
  change (2 ^ 63) with 9223372036854775808 in *.
  destruct (Z_lt_le_dec (offset + nbytes) 9223372036854775808) as [Hs | Hb].
  - rewrite s64_small in * by (unfold Word.is_s64;
      change (2 ^ 63) with 9223372036854775808; lia).
    lia.
  - rewrite s64_wrap_high in H1
      by (change (2 ^ 63) with 9223372036854775808;
          change (2 ^ 64) with 18446744073709551616; lia).
    change (2 ^ 64) with 18446744073709551616 in H1. lia.
Qed.

(** The limit of a 32-bit page index, in bytes. *)
Lemma pgoff_limit_eq cfg :
  0 <= PAGE_CACHE_SHIFT cfg < 32 ->
  pgoff_limit cfg = 2 ^ (32 + PAGE_CACHE_SHIFT cfg).
Proof.
  intros Hs. unfold pgoff_limit, Word.u64, Word.unsigned.
  rewrite Z.shiftl_mul_pow2 by lia.
  change 4294967296 with (2 ^ 32). rewrite <- Z.pow_add_r by lia.
  apply Z.mod_small. split; [apply Z.pow_nonneg; lia | ].
  apply Z.pow_lt_mono_r; lia.
Qed.

Lemma u64_small x : 0 <= x < 2 ^ 63 -> Word.u64 x = x.
Proof.
  intros H. apply unsigned_small.
  change (2 ^ 63) with 9223372036854775808 in H.
  change (2 ^ 64) with 18446744073709551616. lia.
Qed.

Lemma valid_flags_pass flags :
  ~ has_invalid_bit flags ->
  (Z.land flags (Word.u32 (Z.lnot VALID_FLAGS)) =? 0) = true.
Proof.
  intros Hv. apply Z.eqb_eq, Z.bits_inj'. intros i Hi.
  rewrite Z.bits_0. unfold Word.u32, Word.unsigned.
  rewrite <- Z.land_ones by lia. rewrite !Z.land_spec, Z.lnot_spec by lia.
  destruct (Z.testbit flags i) eqn:Hb; [ | reflexivity].
  destruct (Z.testbit VALID_FLAGS i) eqn:Hf; [reflexivity | ].
  exfalso. apply Hv. now exists i.
Qed.

Lemma no_invalid_bit flags :
  Z.land flags (Z.lnot VALID_FLAGS) = 0 -> ~ has_invalid_bit flags.
Proof.
  intros E (i & Hi & Hb & Hf).
  assert (F : Z.testbit (Z.land flags (Z.lnot VALID_FLAGS)) i = false)
    by (rewrite E; apply Z.bits_0).
  rewrite Z.land_spec, Z.lnot_spec, Hb, Hf in F by lia. discriminate.
Qed.

Lemma sync_file_range_check_invalid cfg offset nbytes flags :
  Word.is_u32 flags ->
  has_invalid_bit flags \/ offset < 0 \/ Word.s64 (offset + nbytes) < 0 \/
  Word.s64 (offset + nbytes) < offset ->
  sync_file_range_check cfg offset nbytes flags = Range_return (- EINVAL).
Proof.
  intros Hu H. unfold sync_file_range_check.
  destruct (Z.land flags (Word.u32 (Z.lnot VALID_FLAGS)) =? 0) eqn:Ef;
    cbn [negb]; [ | reflexivity].
  destruct H as [H | H].
  { now rewrite (invalid_flags_detected flags Hu H) in Ef. }
  destruct (Z.ltb_spec offset 0); [reflexivity | ].
  destruct (Z.ltb_spec (Word.s64 (offset + nbytes)) 0); [reflexivity | ].
  destruct (Z.ltb_spec (Word.s64 (offset + nbytes)) offset); [reflexivity | ].
  lia.
Qed.

Lemma sync_file_range_check_valid cfg offset nbytes flags :
  ~ has_invalid_bit flags ->
  Word.is_s64 offset -> Word.is_s64 nbytes ->
  0 <= offset -> 0 <= Word.s64 (offset + nbytes) ->
  offset <= Word.s64 (offset + nbytes) ->
  sync_file_range_check cfg offset nbytes flags
  = if (sizeof_pgoff_t cfg =? 4) && (pgoff_limit cfg <=? offset)
    then Range_return 0
    else
      let n := if (sizeof_pgoff_t cfg =? 4)
                  && (pgoff_limit cfg <=? offset + nbytes)
               then 0 else nbytes in
      Range_ok n (if n =? 0 then LLONG_MAX else offset + nbytes - 1).
Proof.
  intros Hv Ho Hn H0 H1 H2.
  destruct (range_checks_passed offset nbytes Ho Hn H0 H1 H2) as [Hnn Hsum].
  unfold sync_file_range_check. rewrite (valid_flags_pass flags Hv), Hsum.
  cbn [negb].
  rewrite Hsum in H1, H2.
  assert (Hb : offset + nbytes < 2 ^ 63).
  { rewrite <- Hsum. unfold Word.s64, Word.signed. cbv zeta.
    change (64 - 1) with 63.
    assert (0 <= (offset + nbytes) mod 2 ^ 64 < 2 ^ 64)
      by (apply Z.mod_pos_bound; reflexivity).
    destruct (Z.ltb_spec ((offset + nbytes) mod 2 ^ 64) (2 ^ 63)); lia. }
  destruct (Z.ltb_spec offset 0); [lia | ].
  destruct (Z.ltb_spec (offset + nbytes) 0); [lia | ].
  destruct (Z.ltb_spec (offset + nbytes) offset); [lia | ].
  rewrite !u64_small by lia.
  destruct ((sizeof_pgoff_t cfg =? 4) && (pgoff_limit cfg <=? offset));
    [reflexivity | ].
  cbv zeta.
  rewrite s64_small; [reflexivity | ].
  unfold Word.is_s64. change (2 ^ 63) with 9223372036854775808 in *. lia.
Qed.

(** C3 (as amended): with the kill switch not engaged, a call whose flags
    have a bit outside WAIT_BEFORE, WRITE and WAIT_AFTER, or whose offset is
    negative, or whose [offset + nbytes], as a signed 64-bit value, is
    negative or below the offset, returns [-EINVAL] and leaves the state
    as it was: no descriptor is resolved and nothing is flushed.  A call
    that gets past the argument checks and whose descriptor resolves to a
    file that is none of regular file, block device, directory and
    symbolic link returns [-ESPIPE], after resolving and releasing the
    descriptor and nothing else. *)
Theorem sync_file_range_rejects cfg extern fd offset nbytes flags st :
  dyn_fsync_gate cfg st = false ->
  Word.is_u32 flags ->
  (has_invalid_bit flags \/ offset < 0 \/ Word.s64 (offset + nbytes) < 0 \/
   Word.s64 (offset + nbytes) < offset ->
   sys_sync_file_range cfg extern fd offset nbytes flags st = (- EINVAL, st))
  /\ (forall n endbyte f,
        sync_file_range_check cfg offset nbytes flags = Range_ok n endbyte ->
        fdtable st fd = Some f ->
        S_ISREG (i_mode f) = false -> S_ISBLK (i_mode f) = false ->
        S_ISDIR (i_mode f) = false -> S_ISLNK (i_mode f) = false ->
        sys_sync_file_range cfg extern fd offset nbytes flags st
        = (- ESPIPE, logged [Ev_fget fd; Ev_fput (f_ino f)] st)).
Proof.
  intros Hg Hu. unfold sys_sync_file_range, bind, get. rewrite Hg. split.
  - intros H.
    now rewrite (sync_file_range_check_invalid cfg offset nbytes flags Hu H).
  - intros n endbyte f Hc Hfd Hreg Hblk Hdir Hlnk.
    rewrite Hc. unfold fget, fput. rewrite Hfd, Hreg, Hblk, Hdir, Hlnk.
    run_kernel.
Qed.

Lemma sync_file_range_rejects_witness :
  dyn_fsync_gate cfg_arm boot_state = false /\
  Word.is_u32 0 /\
  sys_sync_file_range cfg_arm quiet 3 (-1) 10 0 boot_state
  = (- EINVAL, boot_state) /\
  sys_sync_file_range cfg_arm quiet 5 0 0 0 boot_state
  = (- ESPIPE, logged [Ev_fget 5; Ev_fput 12] boot_state).
Proof.
  assert (Hg : dyn_fsync_gate cfg_arm boot_state = false) by reflexivity.
  assert (Hu : Word.is_u32 0) by (split; [discriminate | reflexivity]).
  split; [exact Hg | split; [exact Hu | split]].
  - apply (proj1 (sync_file_range_rejects cfg_arm quiet 3 (-1) 10 0
                    boot_state Hg Hu)).
    right; left. reflexivity.
  - apply (proj2 (sync_file_range_rejects cfg_arm quiet 5 0 0 0
                    boot_state Hg Hu) 0 LLONG_MAX file_fifo); reflexivity.
Defined.

(** The boundary cases of the range validation. *)
Example sync_file_range_negative_offset :
  sys_sync_file_range cfg_arm quiet 3 (-1) 10 0 boot_state
  = (- EINVAL, boot_state).
Proof. reflexivity. Qed.

Example sync_file_range_overflow :
  sys_sync_file_range cfg_lp64 quiet 3 (LLONG_MAX - 5) 100 0 boot_state
  = (- EINVAL, boot_state).
Proof. reflexivity. Qed.

Example sync_file_range_to_end :
  sys_sync_file_range cfg_lp64 quiet 3 0 0 SYNC_FILE_RANGE_WRITE boot_state
  = (0, logged [Ev_fget 3; Ev_filemap_fdatawrite_range 1000 0 LLONG_MAX;
                Ev_fput 10] boot_state).
Proof. reflexivity. Qed.

(** With the kill switch engaged, a negative offset is not rejected. *)
Lemma sync_file_range_rejects_not_always :
  ~ (forall cfg extern fd offset nbytes flags st,
       Word.is_u32 flags ->
       has_invalid_bit flags \/ offset < 0 \/ Word.s64 (offset + nbytes) < 0 \/
       Word.s64 (offset + nbytes) < offset ->
       fst (sys_sync_file_range cfg extern fd offset nbytes flags st) = - EINVAL).
Proof.
  intros H.
  specialize (H cfg_arm quiet 3 (-1) 10 0 dyn_fsync_state).
  assert (Hu : Word.is_u32 0) by (split; [discriminate | reflexivity]).
  specialize (H Hu (or_intror (or_introl eq_refl))).
  discriminate H.
Qed.

(** C4 (as amended): on a build whose page index has 32 bits, for a call
    whose arguments pass the checks (no flag outside the three, offset and
    [offset + nbytes] non-negative as signed 64-bit values, the sum not
    below the offset): an offset at or beyond the bytes a 32-bit page index
    can address makes the call return 0 with the state as it was; otherwise
    a length that takes the end to that limit or beyond is replaced by 0;
    and a length of 0 gives [LLONG_MAX] as inclusive end, any other length
    [offset + nbytes - 1]. *)
Theorem sync_file_range_normalizes cfg extern fd offset nbytes flags st :
  sizeof_pgoff_t cfg = 4 ->
  0 <= PAGE_CACHE_SHIFT cfg < 32 ->
  ~ has_invalid_bit flags ->
  Word.is_s64 offset -> Word.is_s64 nbytes ->
  0 <= offset -> 0 <= Word.s64 (offset + nbytes) ->
  offset <= Word.s64 (offset + nbytes) ->
  let limit := 2 ^ (32 + PAGE_CACHE_SHIFT cfg) in
  (limit <= offset ->
   sys_sync_file_range cfg extern fd offset nbytes flags st = (0, st))
  /\ (offset < limit ->
      let n := if limit <=? offset + nbytes then 0 else nbytes in
      sync_file_range_check cfg offset nbytes flags
      = Range_ok n (if n =? 0 then LLONG_MAX else offset + nbytes - 1)).
Proof.
  intros Hp Hs Hv Ho Hn H0 H1 H2 limit.
  pose proof (sync_file_range_check_valid cfg offset nbytes flags
                Hv Ho Hn H0 H1 H2) as Hc.
  rewrite (pgoff_limit_eq cfg Hs), Hp in Hc. fold limit in Hc.
  change (4 =? 4) with true in Hc. cbn [andb] in Hc.
  split.
  - intros Hl. unfold sys_sync_file_range, bind, get.
    destruct (dyn_fsync_gate cfg st); [reflexivity | ].
    rewrite Hc. destruct (Z.leb_spec limit offset); [reflexivity | lia].
  - intros Hl n. rewrite Hc.
    destruct (Z.leb_spec limit offset); [lia | reflexivity].
Qed.

Lemma sync_file_range_normalizes_witness :
  sizeof_pgoff_t cfg_arm = 4 /\
  0 <= PAGE_CACHE_SHIFT cfg_arm < 32 /\
  ~ has_invalid_bit 2 /\
  Word.is_s64 4096 /\ Word.is_s64 (2 ^ 44) /\
  0 <= 4096 /\ 0 <= Word.s64 (4096 + 2 ^ 44) /\
  4096 <= Word.s64 (4096 + 2 ^ 44) /\
  sync_file_range_check cfg_arm 4096 (2 ^ 44) 2 = Range_ok 0 LLONG_MAX.
Proof.
  assert (Hv : ~ has_invalid_bit 2)
    by (apply no_invalid_bit; reflexivity).
  assert (Ho : Word.is_s64 4096) by (split; [discriminate | reflexivity]).
  assert (Hn : Word.is_s64 (2 ^ 44)) by (split; [discriminate | reflexivity]).
  assert (Hs : 0 <= PAGE_CACHE_SHIFT cfg_arm < 32)
    by (split; [discriminate | reflexivity]).
  assert (H0 : 0 <= 4096) by discriminate.
  assert (H1 : 0 <= Word.s64 (4096 + 2 ^ 44)) by discriminate.
  assert (H2 : 4096 <= Word.s64 (4096 + 2 ^ 44)) by discriminate.
  repeat (split; [assumption || reflexivity | ]).
  apply (proj2 (sync_file_range_normalizes cfg_arm quiet 3 4096 (2 ^ 44) 2
                  boot_state eq_refl Hs Hv Ho Hn H0 H1 H2)).
  reflexivity.
Defined.

(** A call with valid flags and an offset beyond the limit whose
    [offset + nbytes] overflows [loff_t] is rejected, not answered with
    success. *)
Lemma sync_file_range_normalizes_not_always :
  ~ (forall cfg extern fd offset nbytes flags st,
       sizeof_pgoff_t cfg = 4 ->
       0 <= PAGE_CACHE_SHIFT cfg < 32 ->
       ~ has_invalid_bit flags ->
       Word.is_s64 offset -> Word.is_s64 nbytes ->
       2 ^ (32 + PAGE_CACHE_SHIFT cfg) <= offset ->
       sys_sync_file_range cfg extern fd offset nbytes flags st = (0, st)).
Proof.
  intros H.
  specialize (H cfg_arm quiet 3 (2 ^ 44) (2 ^ 63 - 1) 0 boot_state eq_refl).
  assert (E : sys_sync_file_range cfg_arm quiet 3 (2 ^ 44) (2 ^ 63 - 1) 0
                boot_state
              = (0, boot_state)).
  { apply H.
    - split; [discriminate | reflexivity].
    - apply no_invalid_bit. reflexivity.
    - split; [discriminate | reflexivity].
    - split; [discriminate | reflexivity].
    - discriminate. }
  discriminate E.
Qed.

(** ** sync_file_range(): the three phases *)

(** The phases in closed form, over the history [klog s] at their start. *)
Lemma sync_file_range_phases_eq extern mapping offset endbyte flags s :
  let wb := has_flag flags SYNC_FILE_RANGE_WAIT_BEFORE in
  let wr := has_flag flags SYNC_FILE_RANGE_WRITE in
  let wa := has_flag flags SYNC_FILE_RANGE_WAIT_AFTER in
  let wait := Ev_filemap_fdatawait_range mapping offset endbyte in
  let write := Ev_filemap_fdatawrite_range mapping offset endbyte in
  let before := if wb then [wait] else [] in
  let writing := if wr then [write] else [] in
  let after := if wa then [wait] else [] in
  let r1 := extern (klog s) wait in
  let r2 := extern (klog s ++ before) write in
  let r3 := extern (klog s ++ before ++ writing) wait in
  sync_file_range_phases extern mapping offset endbyte flags s
  = if wb && (r1 <? 0) then (r1, logged [wait] s)
    else if wr && (r2 <? 0) then (r2, logged (before ++ [write]) s)
    else (if wa then r3 else if wr then r2 else if wb then r1 else 0,
          logged (before ++ writing ++ after) s).
Proof.
  intros wb wr wa wait write before writing after r1 r2 r3.
  unfold sync_file_range_phases, sync_file_range_write,
    sync_file_range_wait_after.
  fold wb wr wa wait write.
  subst r1 r2 r3 before writing after.
  destruct wb, wr, wa; cbn [andb app]; rewrite ?app_nil_r;
    cbv [bind call ret]; cbn [klog set_klog];
    repeat (match goal with
            | |- context [if ?c <? 0 then _ else _] => destruct (c <? 0)
            end; cbv beta; cbn [klog set_klog]);
    try (now rewrite logged_nil); run_kernel.
Qed.

(** A call that reaches the phases resolves the descriptor before them and
    releases it after them. *)
Lemma sys_sync_file_range_reaches_phases
      cfg extern fd offset nbytes flags st n endbyte f mapping :
  dyn_fsync_gate cfg st = false ->
  sync_file_range_check cfg offset nbytes flags = Range_ok n endbyte ->
  fdtable st fd = Some f ->
  S_ISREG (i_mode f) || S_ISBLK (i_mode f) || S_ISDIR (i_mode f)
  || S_ISLNK (i_mode f) = true ->
  f_mapping f = Some mapping ->
  sys_sync_file_range cfg extern fd offset nbytes flags st
  = (fst (sync_file_range_phases extern mapping offset endbyte flags
            (logged [Ev_fget fd] st)),
     logged [Ev_fput (f_ino f)]
       (snd (sync_file_range_phases extern mapping offset endbyte flags
               (logged [Ev_fget fd] st)))).
Proof.
  intros Hg Hc Hfd Hty Hm.
  unfold sys_sync_file_range, bind, get, fget, fput.
  rewrite Hg, Hc, Hfd, Hm.
  change (set_klog (klog st ++ [Ev_fget fd]) st) with (logged [Ev_fget fd] st).
  destruct (S_ISREG (i_mode f)), (S_ISBLK (i_mode f)), (S_ISDIR (i_mode f)),
    (S_ISLNK (i_mode f)); try discriminate Hty; cbn [negb andb];
    destruct (sync_file_range_phases extern mapping offset endbyte flags _);
    reflexivity.
Qed.

(** C5: a call that got past the kill switch, the argument checks, the
    resolution of the descriptor, the file-type test and the test for a
    mapping.  The phases are the wait before, the write and the wait
    after, in this order, each only if its flag is set, all on the range
    from [offset] to the inclusive end.  A negative answer of the wait
    before or of the write ends the call with that answer and without the
    later phases; otherwise all selected phases are made, and the answer of
    the wait after, if selected, is the result; when no phase gave a
    negative answer the result is not negative, and it is 0 when no phase
    is selected.  The descriptor is released in every case. *)
Theorem sync_file_range_phases_order
        cfg extern fd offset nbytes flags st n endbyte f mapping :
  dyn_fsync_gate cfg st = false ->
  sync_file_range_check cfg offset nbytes flags = Range_ok n endbyte ->
  fdtable st fd = Some f ->
  S_ISREG (i_mode f) || S_ISBLK (i_mode f) || S_ISDIR (i_mode f)
  || S_ISLNK (i_mode f) = true ->
  f_mapping f = Some mapping ->
  let wb := has_flag flags SYNC_FILE_RANGE_WAIT_BEFORE in
  let wr := has_flag flags SYNC_FILE_RANGE_WRITE in
  let wa := has_flag flags SYNC_FILE_RANGE_WAIT_AFTER in
  let wait := Ev_filemap_fdatawait_range mapping offset endbyte in
  let write := Ev_filemap_fdatawrite_range mapping offset endbyte in
  let before := if wb then [wait] else [] in
  let writing := if wr then [write] else [] in
  let after := if wa then [wait] else [] in
  let h := klog st ++ [Ev_fget fd] in
  let r1 := extern h wait in
  let r2 := extern (h ++ before) write in
  let r3 := extern (h ++ before ++ writing) wait in
  let result := sys_sync_file_range cfg extern fd offset nbytes flags st in
  let done evs := logged ([Ev_fget fd] ++ evs ++ [Ev_fput (f_ino f)]) st in
  (wb = true -> r1 < 0 -> result = (r1, done [wait]))
  /\ (wr = true -> (wb = false \/ 0 <= r1) -> r2 < 0 ->
      result = (r2, done (before ++ [write])))
  /\ ((wb = false \/ 0 <= r1) -> (wr = false \/ 0 <= r2) ->
      result = (if wa then r3 else if wr then r2 else if wb then r1 else 0,
                done (before ++ writing ++ after))
      /\ ((wa = false \/ 0 <= r3) -> 0 <= fst result)).
Proof.
  intros Hg Hc Hfd Hty Hm wb wr wa wait write before writing after h r1 r2 r3
         result done.
  assert (Hres : result
                 = (if wb && (r1 <? 0) then (r1, done [wait])
                    else if wr && (r2 <? 0) then (r2, done (before ++ [write]))
                    else (if wa then r3 else if wr then r2
                          else if wb then r1 else 0,
                          done (before ++ writing ++ after)))).
  { subst result.
    rewrite (sys_sync_file_range_reaches_phases cfg extern fd offset nbytes
               flags st n endbyte f mapping Hg Hc Hfd Hty Hm).
    rewrite sync_file_range_phases_eq. cbv zeta.
    fold wb wr wa wait write before writing.
    change (klog (logged [Ev_fget fd] st)) with h. fold r1 r2 r3.
    subst done. cbv beta.
    destruct (wb && (r1 <? 0)); [ | destruct (wr && (r2 <? 0))];
      cbn [fst snd]; rewrite !logged_logged, <- ?app_assoc; reflexivity. }
  rewrite Hres. clear Hres.
  assert (L : forall r, r < 0 -> (r <? 0) = true)
    by (intros; now apply Z.ltb_lt).
  assert (G : forall r, 0 <= r -> (r <? 0) = false)
    by (intros; now apply Z.ltb_ge).
  split; [ | split].
  - intros -> Hr1. now rewrite (L _ Hr1).
  - intros -> Hok Hr2. rewrite (L _ Hr2).
    destruct Hok as [-> | Hok]; [reflexivity | ].
    rewrite (G _ Hok), andb_false_r. reflexivity.
  - intros Hok1 Hok2.
    assert (E1 : wb && (r1 <? 0) = false).
    { destruct Hok1 as [-> | Hok1]; [reflexivity | ].
      now rewrite (G _ Hok1), andb_false_r. }
    assert (E2 : wr && (r2 <? 0) = false).
    { destruct Hok2 as [-> | Hok2]; [reflexivity | ].
      now rewrite (G _ Hok2), andb_false_r. }
    rewrite E1, E2. split; [reflexivity | ].
    intros Hok3. cbn [fst].
    destruct wa.
    + destruct Hok3 as [Hok3 | Hok3]; [discriminate | exact Hok3].
    + destruct wr.
      * destruct Hok2 as [Hok2 | Hok2]; [discriminate | exact Hok2].
      * destruct wb; [ | apply Z.le_refl].
        destruct Hok1 as [Hok1 | Hok1]; [discriminate | exact Hok1].
Qed.

Lemma sync_file_range_phases_order_witness :
  dyn_fsync_gate cfg_arm boot_state = false /\
  sync_file_range_check cfg_arm 0 4096 7 = Range_ok 4096 4095 /\
  fdtable boot_state 3 = Some file_reg /\
  S_ISREG (i_mode file_reg) || S_ISBLK (i_mode file_reg)
  || S_ISDIR (i_mode file_reg) || S_ISLNK (i_mode file_reg) = true /\
  f_mapping file_reg = Some 1000 /\
  sys_sync_file_range cfg_arm quiet 3 0 4096 7 boot_state
  = (0, logged [Ev_fget 3;
                Ev_filemap_fdatawait_range 1000 0 4095;
                Ev_filemap_fdatawrite_range 1000 0 4095;
                Ev_filemap_fdatawait_range 1000 0 4095;
                Ev_fput 10] boot_state).
Proof.
  repeat (split; [reflexivity | ]).
  apply (proj2 (proj2 (sync_file_range_phases_order cfg_arm quiet 3 0 4096 7
                         boot_state 4096 4095 file_reg 1000
                         eq_refl eq_refl eq_refl eq_refl eq_refl)));
    right; discriminate.
Defined.

(** ** fsync() and fdatasync() *)

Lemma vfs_fsync_range_no_fsync cfg extern f start end_ datasync st :
  dyn_fsync_gate cfg st = false -> f_op_fsync f = false ->
  vfs_fsync_range cfg extern f start end_ datasync st = (- EINVAL, st).
Proof.
  intros Hg Hf. unfold vfs_fsync_range, bind, get. now rewrite Hg, Hf.
Qed.

Lemma vfs_fsync_range_gated cfg extern f start end_ datasync st :
  dyn_fsync_gate cfg st = true ->
  vfs_fsync_range cfg extern f start end_ datasync st = (0, st).
Proof. intros Hg. unfold vfs_fsync_range, bind, get. now rewrite Hg. Qed.

Lemma dyn_fsync_gate_logged cfg evs st :
  dyn_fsync_gate cfg (logged evs st) = dyn_fsync_gate cfg st.
Proof. reflexivity. Qed.

(** [do_fsync] on a descriptor that resolves, when [vfs_fsync_range]
    returns [r] without a call of its own. *)
Lemma do_fsync_no_call cfg extern fd datasync f r st :
  fdtable st fd = Some f ->
  (forall evs, vfs_fsync_range cfg extern f 0 LLONG_MAX datasync (logged evs st)
               = (r, logged evs st)) ->
  let t0 := extern (klog st ++ [Ev_fget fd]) Ev_ktime_get in
  let t1 := extern (klog st ++ [Ev_fget fd; Ev_ktime_get; Ev_fput (f_ino f)])
                   Ev_ktime_get in
  let d := Word.s64 (t1 - t0) in
  do_fsync cfg extern fd datasync st
  = (r, logged ([Ev_fget fd; Ev_ktime_get; Ev_fput (f_ino f); Ev_ktime_get]
                ++ (if 5000000000 <=? d then [Ev_pr_info_slow_fsync d] else []))
               st).
Proof.
  intros Hfd Hv t0 t1 d. unfold do_fsync, bind, fget, fput, vfs_fsync.
  rewrite Hfd, call_eq.
  change (set_klog (klog st ++ [Ev_fget fd]) st) with (logged [Ev_fget fd] st).
  rewrite logged_logged, Hv, emit_eq, call_eq, !logged_logged.
  cbn [klog logged set_klog app]. rewrite <- ?app_assoc. cbn [app].
  fold t0 t1 d. unfold when.
  destruct (5000000000 <=? d); run_kernel.
Qed.

(** C7 (as amended): with the kill switch not engaged, the single-file
    sync of a file that has no flush capability fails with [-EINVAL], the
    error that stands for "unsupported" on this path, and calls nothing;
    fsync() and fdatasync() on a descriptor of such a file return this
    error. *)
Theorem fsync_without_flush_capability
        cfg extern fd f start end_ datasync st :
  dyn_fsync_gate cfg st = false ->
  f_op_fsync f = false ->
  vfs_fsync_range cfg extern f start end_ datasync st = (- EINVAL, st)
  /\ (fdtable st fd = Some f ->
      fst (sys_fsync cfg extern fd st) = - EINVAL /\
      fst (sys_fdatasync cfg extern fd st) = - EINVAL).
Proof.
  intros Hg Hf. split.
  - now apply vfs_fsync_range_no_fsync.
  - intros Hfd.
    assert (Hv : forall datasync evs,
               vfs_fsync_range cfg extern f 0 LLONG_MAX datasync (logged evs st)
               = (- EINVAL, logged evs st)).
    { intros. apply vfs_fsync_range_no_fsync; [ | exact Hf].
      now rewrite dyn_fsync_gate_logged. }
    unfold sys_fsync, sys_fdatasync, bind, get. rewrite Hg.
    rewrite (do_fsync_no_call cfg extern fd 0 f (- EINVAL) st Hfd (Hv 0)).
    rewrite (do_fsync_no_call cfg extern fd 1 f (- EINVAL) st Hfd (Hv 1)).
    split; reflexivity.
Qed.

Lemma fsync_without_flush_capability_witness :
  dyn_fsync_gate cfg_arm boot_state = false /\
  f_op_fsync file_nofsync = false /\
  vfs_fsync_range cfg_arm quiet file_nofsync 0 LLONG_MAX 0 boot_state
  = (- EINVAL, boot_state) /\
  (fdtable boot_state 4 = Some file_nofsync ->
   fst (sys_fsync cfg_arm quiet 4 boot_state) = - EINVAL /\
   fst (sys_fdatasync cfg_arm quiet 4 boot_state) = - EINVAL).
Proof.
  split; [reflexivity | split; [reflexivity | ]].
  apply (fsync_without_flush_capability cfg_arm quiet 4 file_nofsync
           0 LLONG_MAX 0 boot_state); reflexivity.
Defined.

(** With the kill switch engaged, the single-file sync of a file without a
    flush capability succeeds. *)
Lemma fsync_without_flush_capability_not_always :
  ~ (forall cfg extern f start end_ datasync st,
       f_op_fsync f = false ->
       fst (vfs_fsync_range cfg extern f start end_ datasync st) < 0).
Proof.
  intros H.
  specialize (H cfg_arm quiet file_nofsync 0 LLONG_MAX 0 dyn_fsync_state
                eq_refl).
  discriminate H.
Qed.

(** ** The kill switch *)

Lemma blind_ret {A} (a : A) : switch_blind (ret a).
Proof. intros x e st. reflexivity. Qed.

Lemma blind_bind {A B} (m : kernel A) (k : A -> kernel B) :
  switch_blind m -> (forall a, switch_blind (k a)) -> switch_blind (bind m k).
Proof.
  intros Hm Hk x e st. unfold bind. rewrite Hm.
  destruct (m st) as [a st']. cbn [fst snd]. apply Hk.
Qed.

Lemma blind_call extern ev : switch_blind (call extern ev).
Proof. intros x e st. reflexivity. Qed.

Lemma blind_emit ev : switch_blind (emit ev).
Proof. intros x e st. reflexivity. Qed.

Lemma blind_when b m : switch_blind m -> switch_blind (when b m).
Proof. intros H. destruct b; [exact H | apply blind_ret]. Qed.

Lemma blind_fget fd : switch_blind (fget fd).
Proof. intros x e st. reflexivity. Qed.

Create HintDb blind.

Ltac blind :=
  repeat first
    [ solve [auto with blind]
    | apply blind_bind; [ | intros ? ]
    | apply blind_when
    | apply blind_ret
    | apply blind_call
    | apply blind_emit
    | apply blind_fget
    | match goal with
      | |- switch_blind (if ?b then _ else _) => destruct b
      | |- switch_blind (match ?o with Some _ => _ | None => _ end) =>
          destruct o
      end
    | (intros ? ? ?; reflexivity) ].

Lemma blind___sync_filesystem extern sb wait :
  switch_blind (__sync_filesystem extern sb wait).
Proof. unfold __sync_filesystem. blind. Qed.

#[local] Hint Resolve blind___sync_filesystem : blind.

Lemma blind_sync_filesystem extern sb : switch_blind (sync_filesystem extern sb).
Proof. unfold sync_filesystem. blind. Qed.

Lemma blind_sync_one_sb extern sb arg : switch_blind (sync_one_sb extern sb arg).
Proof. unfold sync_one_sb. blind. Qed.

Lemma blind_iterate_list extern arg l :
  switch_blind (iterate_list (sync_one_sb extern) arg l).
Proof.
  induction l as [| sb l IH]; cbn [iterate_list]; [apply blind_ret | ].
  apply blind_bind; [apply blind_sync_one_sb | intros _; exact IH].
Qed.

Lemma blind_sync_filesystems extern wait :
  switch_blind (sync_filesystems extern wait).
Proof.
  unfold sync_filesystems, iterate_supers.
  apply blind_bind; [intros x e st; reflexivity | intros l].
  apply blind_iterate_list.
Qed.

#[local] Hint Resolve blind_sync_filesystem blind_sync_filesystems : blind.

Lemma blind_do_sync extern : switch_blind (do_sync extern).
Proof. unfold do_sync. blind. Qed.

#[local] Hint Resolve blind_do_sync : blind.

Lemma blind_sys_sync_locked cfg extern snap :
  switch_blind (sys_sync_locked cfg extern snap).
Proof. unfold sys_sync_locked. blind. Qed.

Lemma blind_sys_syncfs extern fd : switch_blind (sys_syncfs extern fd).
Proof. unfold sys_syncfs, fput. blind. Qed.

(** C8 (as amended): with the kill switch engaged (compiled in, fsync
    suppression active, early suspend not active), fsync(),
    sync_file_range() and sync_file_range2() return 0 at once and leave
    the state as it was.  fdatasync() has its own test compiled out: it
    still resolves the descriptor, failing with [-EBADF] when there is
    none, and reads the clock, but the test in [vfs_fsync_range] makes it
    return 0 without calling the flush capability of the file.  sync() and
    syncfs() never look at the switch and run the same whatever its
    flags are. *)
Theorem dyn_fsync_short_circuits cfg extern fd offset nbytes flags snap st :
  dyn_fsync_gate cfg st = true ->
  sys_fsync cfg extern fd st = (0, st)
  /\ sys_sync_file_range cfg extern fd offset nbytes flags st = (0, st)
  /\ sys_sync_file_range2 cfg extern fd flags offset nbytes st = (0, st)
  /\ (forall f, fdtable st fd = Some f ->
        let t0 := extern (klog st ++ [Ev_fget fd]) Ev_ktime_get in
        let t1 := extern (klog st ++ [Ev_fget fd; Ev_ktime_get;
                                      Ev_fput (f_ino f)]) Ev_ktime_get in
        let d := Word.s64 (t1 - t0) in
        sys_fdatasync cfg extern fd st
        = (0, logged ([Ev_fget fd; Ev_ktime_get; Ev_fput (f_ino f);
                       Ev_ktime_get]
                      ++ (if 5000000000 <=? d
                          then [Ev_pr_info_slow_fsync d] else [])) st))
  /\ (fdtable st fd = None ->
      sys_fdatasync cfg extern fd st = (- EBADF, logged [Ev_fget fd] st))
  /\ switch_blind (sys_sync_locked cfg extern snap)
  /\ switch_blind (sys_syncfs extern fd).
Proof.
  intros Hg. repeat split.
  - unfold sys_fsync, bind, get. now rewrite Hg.
  - unfold sys_sync_file_range, bind, get. now rewrite Hg.
  - unfold sys_sync_file_range2, bind, get. now rewrite Hg.
  - intros f Hfd t0 t1 d. unfold sys_fdatasync.
    apply (do_fsync_no_call cfg extern fd 1 f 0 st Hfd).
    intros evs. apply vfs_fsync_range_gated.
    now rewrite dyn_fsync_gate_logged.
  - intros Hfd. unfold sys_fdatasync, do_fsync, bind, fget. now rewrite Hfd.
  - apply blind_sys_sync_locked.
  - apply blind_sys_syncfs.
Qed.

Lemma dyn_fsync_short_circuits_witness :
  dyn_fsync_gate cfg_arm dyn_fsync_state = true /\
  sys_fsync cfg_arm quiet 3 dyn_fsync_state = (0, dyn_fsync_state).
Proof.
  split; [reflexivity | ].
  apply (dyn_fsync_short_circuits cfg_arm quiet 3 0 0 7 0 dyn_fsync_state).
  reflexivity.
Defined.

(** With the kill switch engaged, sync() and syncfs() still flush, and
    fdatasync() still fails on a descriptor that is not open. *)
Lemma dyn_fsync_short_circuits_not_all :
  ~ (forall cfg extern st,
       dyn_fsync_gate cfg st = true -> klog st = [] ->
       fst (sys_sync cfg extern st) = 0 /\
       existsb is_flush_event (klog (snd (sys_sync cfg extern st))) = false)
  /\ ~ (forall cfg extern fd st,
          dyn_fsync_gate cfg st = true -> klog st = [] ->
          fst (sys_syncfs extern fd st) = 0 /\
          existsb is_flush_event (klog (snd (sys_syncfs extern fd st))) = false)
  /\ ~ (forall cfg extern fd st,
          dyn_fsync_gate cfg st = true ->
          fst (sys_fdatasync cfg extern fd st) = 0).
Proof.
  split; [ | split]; intros H.
  - destruct (H cfg_arm quiet dyn_fsync_state eq_refl eq_refl) as [_ E].
    discriminate E.
  - destruct (H cfg_arm quiet 3 dyn_fsync_state eq_refl eq_refl) as [_ E].
    discriminate E.
  - specialize (H cfg_arm quiet 99 dyn_fsync_state eq_refl).
    discriminate H.
Qed.

(** * Further properties *)

(** ** sync_file_range(): what the argument checks let through *)

Lemma invalid_bit_found flags :
  (Z.land flags (Word.u32 (Z.lnot VALID_FLAGS)) =? 0) = false ->
  has_invalid_bit flags.
Proof.
  intros E. apply Z.eqb_neq in E.
  set (x := Z.land flags (Word.u32 (Z.lnot VALID_FLAGS))) in *.
  assert (Hm : 0 <= Word.u32 (Z.lnot VALID_FLAGS)) by discriminate.
  assert (Hx : 0 < x).
  { assert (0 <= x) by (apply Z.land_nonneg; right; exact Hm). lia. }
  pose proof (Z.bit_log2 x Hx) as Hb.
  pose proof (Z.log2_nonneg x) as Hi.
  unfold x in Hb. rewrite Z.land_spec in Hb.
  apply andb_true_iff in Hb. destruct Hb as [Hf Hmask].
  exists (Z.log2 x). split; [exact Hi | split; [exact Hf | ]].
  unfold Word.u32, Word.unsigned in Hmask.
  rewrite <- Z.land_ones in Hmask by lia.
  rewrite Z.land_spec, Z.lnot_spec in Hmask by exact Hi.
  apply andb_true_iff in Hmask. destruct Hmask as [Hn _].
  now apply negb_true_iff in Hn.
Qed.

(** What a passed check says about the arguments and its two results. *)
Lemma sync_file_range_check_ok_inv cfg offset nbytes flags n endbyte :
  Word.is_u32 flags -> Word.is_s64 offset -> Word.is_s64 nbytes ->
  sync_file_range_check cfg offset nbytes flags = Range_ok n endbyte ->
  ~ has_invalid_bit flags /\ 0 <= offset /\ 0 <= nbytes /\
  offset + nbytes < 2 ^ 63 /\
  (sizeof_pgoff_t cfg =? 4) && (pgoff_limit cfg <=? offset) = false /\
  n = (if (sizeof_pgoff_t cfg =? 4) && (pgoff_limit cfg <=? offset + nbytes)
       then 0 else nbytes) /\
  endbyte = (if n =? 0 then LLONG_MAX else offset + nbytes - 1).
Proof.
  intros Hu Ho Hn Hc.
  assert (Hv : ~ has_invalid_bit flags /\ 0 <= offset /\
               0 <= Word.s64 (offset + nbytes) /\
               offset <= Word.s64 (offset + nbytes)).
  { unfold sync_file_range_check in Hc.
    destruct (Z.land flags (Word.u32 (Z.lnot VALID_FLAGS)) =? 0) eqn:Ef;
      cbn [negb] in Hc; [ | discriminate Hc].
    destruct (Z.ltb_spec offset 0); [discriminate Hc | ].
    destruct (Z.ltb_spec (Word.s64 (offset + nbytes)) 0); [discriminate Hc | ].
    destruct (Z.ltb_spec (Word.s64 (offset + nbytes)) offset);
      [discriminate Hc | ].
    repeat split; try assumption.
    intros Hbad. rewrite (invalid_flags_detected flags Hu Hbad) in Ef.
    discriminate Ef. }
  destruct Hv as (Hv & H0 & H1 & H2).
  destruct (range_checks_passed offset nbytes Ho Hn H0 H1 H2) as [Hnn Hsum].
  rewrite (sync_file_range_check_valid cfg offset nbytes flags
             Hv Ho Hn H0 H1 H2) in Hc.
  assert (Hb : offset + nbytes < 2 ^ 63).
  { rewrite <- Hsum. unfold Word.s64, Word.signed. cbv zeta.
    change (64 - 1) with 63.
    assert (0 <= (offset + nbytes) mod 2 ^ 64 < 2 ^ 64)
      by (apply Z.mod_pos_bound; reflexivity).
    destruct (Z.ltb_spec ((offset + nbytes) mod 2 ^ 64) (2 ^ 63)); lia. }
  destruct ((sizeof_pgoff_t cfg =? 4) && (pgoff_limit cfg <=? offset));
    [discriminate Hc | ].
  cbv zeta in Hc. injection Hc as <- <-.
  repeat split; assumption || reflexivity.
Qed.

(** X1: the argument checks of sync_file_range() answer [-EINVAL] exactly
    when the flags have a bit outside the three, or the offset is negative,
    or [offset + nbytes], as a signed 64-bit value, is negative or below
    the offset; arguments free of these faults are never refused. *)
Theorem sync_file_range_check_einval_iff cfg offset nbytes flags :
  Word.is_u32 flags -> Word.is_s64 offset -> Word.is_s64 nbytes ->
  sync_file_range_check cfg offset nbytes flags = Range_return (- EINVAL)
  <-> (has_invalid_bit flags \/ offset < 0 \/
       Word.s64 (offset + nbytes) < 0 \/
       Word.s64 (offset + nbytes) < offset).
Proof.
  intros Hu Ho Hn. split.
  - intros Hc. unfold sync_file_range_check in Hc.
    destruct (Z.land flags (Word.u32 (Z.lnot VALID_FLAGS)) =? 0) eqn:Ef;
      cbn [negb] in Hc; [ | left; now apply invalid_bit_found].
    right.
    destruct (Z.ltb_spec offset 0); [now left | ].
    destruct (Z.ltb_spec (Word.s64 (offset + nbytes)) 0); [right; now left | ].
    destruct (Z.ltb_spec (Word.s64 (offset + nbytes)) offset);
      [right; now right | ].
    exfalso.
    destruct ((sizeof_pgoff_t cfg =? 4)
              && (pgoff_limit cfg <=? Word.u64 offset)); discriminate Hc.
  - now apply sync_file_range_check_invalid.
Qed.

Lemma sync_file_range_check_einval_iff_witness :
  Word.is_u32 0 /\ Word.is_s64 (LLONG_MAX - 5) /\ Word.is_s64 100 /\
  (sync_file_range_check cfg_lp64 (LLONG_MAX - 5) 100 0
   = Range_return (- EINVAL)
   <-> (has_invalid_bit 0 \/ LLONG_MAX - 5 < 0 \/
        Word.s64 (LLONG_MAX - 5 + 100) < 0 \/
        Word.s64 (LLONG_MAX - 5 + 100) < LLONG_MAX - 5)).
Proof.
  assert (Hu : Word.is_u32 0) by (split; [discriminate | reflexivity]).
  assert (Ho : Word.is_s64 (LLONG_MAX - 5))
    by (split; [discriminate | reflexivity]).
  assert (Hn : Word.is_s64 100) by (split; [discriminate | reflexivity]).
  split; [exact Hu | split; [exact Ho | split; [exact Hn | ]]].
  exact (sync_file_range_check_einval_iff cfg_lp64 (LLONG_MAX - 5) 100 0
           Hu Ho Hn).
Defined.

(** X2: the range that a call of sync_file_range() hands to the write-back
    code is never inverted and never leaves [loff_t]: it starts at the
    offset, which is not negative, and its inclusive end is [LLONG_MAX] or,
    for a length that is not 0, the last byte [offset + nbytes - 1]. *)
Theorem sync_file_range_check_range cfg offset nbytes flags n endbyte :
  Word.is_u32 flags -> Word.is_s64 offset -> Word.is_s64 nbytes ->
  sync_file_range_check cfg offset nbytes flags = Range_ok n endbyte ->
  0 <= offset <= endbyte /\ endbyte <= LLONG_MAX /\
  (endbyte = LLONG_MAX \/ (0 < nbytes /\ endbyte = offset + nbytes - 1)).
Proof.
  intros Hu Ho Hn Hc.
  destruct (sync_file_range_check_ok_inv cfg offset nbytes flags n endbyte
              Hu Ho Hn Hc) as (_ & H0 & Hnn & Hb & _ & En & Ee).
  unfold LLONG_MAX in *.
  destruct (Z.eqb_spec n 0) as [Z0 | NZ]; subst endbyte.
  - repeat split; lia.
  - assert (0 < nbytes).
    { destruct ((sizeof_pgoff_t cfg =? 4)
                && (pgoff_limit cfg <=? offset + nbytes)); lia. }
    repeat split; lia.
Qed.

Lemma sync_file_range_check_range_witness :
  Word.is_u32 2 /\ Word.is_s64 4096 /\ Word.is_s64 8192 /\
  sync_file_range_check cfg_arm 4096 8192 2 = Range_ok 8192 12287 /\
  0 <= 4096 <= 12287.
Proof.
  assert (Hu : Word.is_u32 2) by (split; [discriminate | reflexivity]).
  assert (Ho : Word.is_s64 4096) by (split; [discriminate | reflexivity]).
  assert (Hn : Word.is_s64 8192) by (split; [discriminate | reflexivity]).
  repeat (split; [assumption || reflexivity | ]).
  exact (proj1 (sync_file_range_check_range cfg_arm 4096 8192 2 8192 12287
                  Hu Ho Hn eq_refl)).
Defined.

(** X3: where the page index is not a 32-bit one, sync_file_range() skips
    no offset and replaces no length: arguments that pass the checks reach
    the resolution of the descriptor with their own length, and only a
    length of 0 means "to the end". *)
Theorem sync_file_range_check_wide_index cfg offset nbytes flags :
  sizeof_pgoff_t cfg <> 4 ->
  ~ has_invalid_bit flags ->
  Word.is_s64 offset -> Word.is_s64 nbytes ->
  0 <= offset -> 0 <= Word.s64 (offset + nbytes) ->
  offset <= Word.s64 (offset + nbytes) ->
  sync_file_range_check cfg offset nbytes flags
  = Range_ok nbytes
             (if nbytes =? 0 then LLONG_MAX else offset + nbytes - 1).
Proof.
  intros Hp Hv Ho Hn H0 H1 H2.
  rewrite (sync_file_range_check_valid cfg offset nbytes flags
             Hv Ho Hn H0 H1 H2).
  apply Z.eqb_neq in Hp. rewrite Hp. reflexivity.
Qed.

Lemma sync_file_range_check_wide_index_witness :
  sizeof_pgoff_t cfg_lp64 <> 4 /\
  ~ has_invalid_bit 2 /\
  Word.is_s64 (2 ^ 50) /\ Word.is_s64 4096 /\
  0 <= 2 ^ 50 /\ 0 <= Word.s64 (2 ^ 50 + 4096) /\
  2 ^ 50 <= Word.s64 (2 ^ 50 + 4096) /\
  sync_file_range_check cfg_lp64 (2 ^ 50) 4096 2
  = Range_ok 4096 (2 ^ 50 + 4096 - 1).
Proof.
  assert (Hp : sizeof_pgoff_t cfg_lp64 <> 4) by discriminate.
  assert (Hv : ~ has_invalid_bit 2) by (apply no_invalid_bit; reflexivity).
  assert (Ho : Word.is_s64 (2 ^ 50)) by (split; [discriminate | reflexivity]).
  assert (Hn : Word.is_s64 4096) by (split; [discriminate | reflexivity]).
  assert (H0 : 0 <= 2 ^ 50) by discriminate.
  assert (H1 : 0 <= Word.s64 (2 ^ 50 + 4096)) by discriminate.
  assert (H2 : 2 ^ 50 <= Word.s64 (2 ^ 50 + 4096)) by discriminate.
  repeat (split; [assumption | ]).
  exact (sync_file_range_check_wide_index cfg_lp64 (2 ^ 50) 4096 2
           Hp Hv Ho Hn H0 H1 H2).
Defined.

(** X4: where the page index has 32 bits, no byte at or beyond the limit of
    that index is named to the write-back code other than through the
    end marker: a range that sync_file_range() lets through starts below
    [2^32 << PAGE_CACHE_SHIFT] and ends below it or at [LLONG_MAX]. *)
Theorem sync_file_range_check_narrow_index
        cfg offset nbytes flags n endbyte :
  sizeof_pgoff_t cfg = 4 ->
  0 <= PAGE_CACHE_SHIFT cfg < 32 ->
  Word.is_u32 flags -> Word.is_s64 offset -> Word.is_s64 nbytes ->
  sync_file_range_check cfg offset nbytes flags = Range_ok n endbyte ->
  offset < 2 ^ (32 + PAGE_CACHE_SHIFT cfg) /\
  (endbyte = LLONG_MAX \/ endbyte < 2 ^ (32 + PAGE_CACHE_SHIFT cfg)).
Proof.
  intros Hp Hs Hu Ho Hn Hc.
  destruct (sync_file_range_check_ok_inv cfg offset nbytes flags n endbyte
              Hu Ho Hn Hc) as (_ & H0 & Hnn & Hb & Hskip & En & Ee).
  rewrite (pgoff_limit_eq cfg Hs), Hp in *.
  change (4 =? 4) with true in *. cbn [andb] in *.
  apply Z.leb_gt in Hskip. split; [exact Hskip | ].
  destruct (Z.leb_spec (2 ^ (32 + PAGE_CACHE_SHIFT cfg)) (offset + nbytes)).
  - left. subst n. exact Ee.
  - subst n. destruct (nbytes =? 0); [now left | right; lia].
Qed.

Lemma sync_file_range_check_narrow_index_witness :
  sizeof_pgoff_t cfg_arm = 4 /\
  0 <= PAGE_CACHE_SHIFT cfg_arm < 32 /\
  Word.is_u32 2 /\ Word.is_s64 4096 /\ Word.is_s64 (2 ^ 44) /\
  sync_file_range_check cfg_arm 4096 (2 ^ 44) 2 = Range_ok 0 LLONG_MAX /\
  4096 < 2 ^ (32 + PAGE_CACHE_SHIFT cfg_arm).
Proof.
  assert (Hs : 0 <= PAGE_CACHE_SHIFT cfg_arm < 32)
    by (split; [discriminate | reflexivity]).
  assert (Hu : Word.is_u32 2) by (split; [discriminate | reflexivity]).
  assert (Ho : Word.is_s64 4096) by (split; [discriminate | reflexivity]).
  assert (Hn : Word.is_s64 (2 ^ 44)) by (split; [discriminate | reflexivity]).
  repeat (split; [assumption || reflexivity | ]).
  exact (proj1 (sync_file_range_check_narrow_index cfg_arm 4096 (2 ^ 44) 2
                  0 LLONG_MAX eq_refl Hs Hu Ho Hn eq_refl)).
Defined.

(** ** sync_file_range(): the descriptor *)

(** X5: a call of sync_file_range() that got past the kill switch and the
    argument checks resolves the descriptor once.  When the descriptor is
    not open the call returns [-EBADF] and there is nothing to release;
    when it is open the reference is released last whatever happens in
    between, and a file of an accepted type that has no mapping makes the
    call return [-EINVAL] with no write-back call. *)
Theorem sync_file_range_descriptor
        cfg extern fd offset nbytes flags st n endbyte :
  dyn_fsync_gate cfg st = false ->
  sync_file_range_check cfg offset nbytes flags = Range_ok n endbyte ->
  (fdtable st fd = None ->
   sys_sync_file_range cfg extern fd offset nbytes flags st
   = (- EBADF, logged [Ev_fget fd] st))
  /\ (forall f, fdtable st fd = Some f ->
        exists evs,
          snd (sys_sync_file_range cfg extern fd offset nbytes flags st)
          = logged ([Ev_fget fd] ++ evs ++ [Ev_fput (f_ino f)]) st
          /\ forall e, In e evs ->
               exists m, f_mapping f = Some m /\
                 (e = Ev_filemap_fdatawait_range m offset endbyte \/
                  e = Ev_filemap_fdatawrite_range m offset endbyte))
  /\ (forall f, fdtable st fd = Some f ->
        S_ISREG (i_mode f) || S_ISBLK (i_mode f) || S_ISDIR (i_mode f)
        || S_ISLNK (i_mode f) = true ->
        f_mapping f = None ->
        sys_sync_file_range cfg extern fd offset nbytes flags st
        = (- EINVAL, logged [Ev_fget fd; Ev_fput (f_ino f)] st)).
Proof.
  intros Hg Hc. split; [ | split].
  - intros Hfd. unfold sys_sync_file_range, bind, get, fget.
    now rewrite Hg, Hc, Hfd.
  - intros f Hfd.
    destruct (S_ISREG (i_mode f) || S_ISBLK (i_mode f) || S_ISDIR (i_mode f)
              || S_ISLNK (i_mode f)) eqn:Hty;
      [destruct (f_mapping f) as [m | ] eqn:Hm | ].
    + rewrite (sys_sync_file_range_reaches_phases cfg extern fd offset nbytes
                 flags st n endbyte f m Hg Hc Hfd Hty Hm).
      rewrite sync_file_range_phases_eq. cbv zeta.
      set (wait := Ev_filemap_fdatawait_range m offset endbyte).
      set (write := Ev_filemap_fdatawrite_range m offset endbyte).
      set (wb := has_flag flags SYNC_FILE_RANGE_WAIT_BEFORE).
      set (wr := has_flag flags SYNC_FILE_RANGE_WRITE).
      set (wa := has_flag flags SYNC_FILE_RANGE_WAIT_AFTER).
      set (s1 := logged [Ev_fget fd] st).
      assert (Hin : forall l, incl l [wait; write] ->
                forall e, In e l -> exists m0, Some m = Some m0 /\
                  (e = Ev_filemap_fdatawait_range m0 offset endbyte \/
                   e = Ev_filemap_fdatawrite_range m0 offset endbyte)).
      { intros l Hl e He. exists m. split; [reflexivity | ].
        destruct (Hl e He) as [<- | [<- | []]]; [now left | now right]. }
      assert (Hb : incl (if wb then [wait] else []) [wait; write])
        by (destruct wb; intros e He; cbn in *; tauto).
      assert (Hwr : incl (if wr then [write] else []) [wait; write])
        by (destruct wr; intros e He; cbn in *; tauto).
      assert (Ha : incl (if wa then [wait] else []) [wait; write])
        by (destruct wa; intros e He; cbn in *; tauto).
      assert (H1 : incl [wait] [wait; write])
        by (intros e He; cbn in *; tauto).
      assert (H2 : incl [write] [wait; write])
        by (intros e He; cbn in *; tauto).
      match goal with
      | |- context [if wb && ?x then _ else _] => destruct (wb && x)
      end;
        [ | match goal with
            | |- context [if wr && ?x then _ else _] => destruct (wr && x)
            end ];
        cbn [snd]; unfold s1; rewrite !logged_logged.
      * exists [wait]. split; [reflexivity | now apply Hin].
      * exists ((if wb then [wait] else []) ++ [write]).
        split; [now rewrite <- ?app_assoc | ].
        apply Hin. now apply incl_app.
      * exists ((if wb then [wait] else []) ++ (if wr then [write] else [])
                ++ (if wa then [wait] else [])).
        split; [now rewrite <- ?app_assoc | ].
        apply Hin. apply incl_app; [assumption | now apply incl_app].
    + exists []. split; [ | intros e []].
      unfold sys_sync_file_range, bind, get, fget, fput.
      rewrite Hg, Hc, Hfd, Hm.
      destruct (S_ISREG (i_mode f)), (S_ISBLK (i_mode f)),
        (S_ISDIR (i_mode f)), (S_ISLNK (i_mode f));
        try discriminate Hty; run_kernel.
    + exists []. split; [ | intros e []].
      unfold sys_sync_file_range, bind, get, fget, fput.
      rewrite Hg, Hc, Hfd.
      destruct (S_ISREG (i_mode f)), (S_ISBLK (i_mode f)),
        (S_ISDIR (i_mode f)), (S_ISLNK (i_mode f));
        try discriminate Hty; run_kernel.
  - intros f Hfd Hty Hm.
    unfold sys_sync_file_range, bind, get, fget, fput.
    rewrite Hg, Hc, Hfd, Hm.
    destruct (S_ISREG (i_mode f)), (S_ISBLK (i_mode f)),
      (S_ISDIR (i_mode f)), (S_ISLNK (i_mode f));
      try discriminate Hty; run_kernel.
Qed.

Lemma sync_file_range_descriptor_witness :
  dyn_fsync_gate cfg_arm boot_state = false /\
  sync_file_range_check cfg_arm 0 0 2 = Range_ok 0 LLONG_MAX /\
  fdtable boot_state 99 = None /\
  sys_sync_file_range cfg_arm quiet 99 0 0 2 boot_state
  = (- EBADF, logged [Ev_fget 99] boot_state).
Proof.
  repeat (split; [reflexivity | ]).
  exact (proj1 (sync_file_range_descriptor cfg_arm quiet 99 0 0 2 boot_state
                  0 LLONG_MAX eq_refl eq_refl) eq_refl).
Defined.

(** X6: sync_file_range2() is sync_file_range() with the arguments in
    another order, in every state: its own test of the kill switch changes
    nothing. *)
Theorem sys_sync_file_range2_eq cfg extern fd flags offset nbytes st :
  sys_sync_file_range2 cfg extern fd flags offset nbytes st
  = sys_sync_file_range cfg extern fd offset nbytes flags st.
Proof.
  unfold sys_sync_file_range2, sys_sync_file_range, bind, get.
  destruct (dyn_fsync_gate cfg st) eqn:Hg; [reflexivity | ].
  now rewrite Hg.
Qed.

(** ** fsync(), fdatasync() and generic_write_sync() *)

Lemma vfs_fsync_range_calls cfg extern f start end_ datasync st :
  dyn_fsync_gate cfg st = false -> f_op_fsync f = true ->
  vfs_fsync_range cfg extern f start end_ datasync st
  = (extern (klog st ++ [Ev_trace_vfs_fsync (f_ino f)])
            (Ev_fsync (f_ino f) start end_ datasync),
     logged [Ev_trace_vfs_fsync (f_ino f);
             Ev_fsync (f_ino f) start end_ datasync;
             Ev_trace_vfs_fsync_done (f_ino f)] st).
Proof.
  intros Hg Hf. unfold vfs_fsync_range, bind, get. rewrite Hg, Hf.
  cbn [negb]. run_kernel.
Qed.

Lemma do_fsync_calls cfg extern fd datasync f st :
  dyn_fsync_gate cfg st = false ->
  fdtable st fd = Some f -> f_op_fsync f = true ->
  let op := Ev_fsync (f_ino f) 0 LLONG_MAX datasync in
  let before := [Ev_fget fd; Ev_ktime_get; Ev_trace_vfs_fsync (f_ino f)] in
  let after := [Ev_trace_vfs_fsync_done (f_ino f); Ev_fput (f_ino f)] in
  let t0 := extern (klog st ++ [Ev_fget fd]) Ev_ktime_get in
  let t1 := extern (klog st ++ before ++ [op] ++ after) Ev_ktime_get in
  let d := Word.s64 (t1 - t0) in
  do_fsync cfg extern fd datasync st
  = (extern (klog st ++ before) op,
     logged (before ++ [op] ++ after ++ [Ev_ktime_get]
             ++ (if 5000000000 <=? d then [Ev_pr_info_slow_fsync d] else []))
            st).
Proof.
  intros Hg Hfd Hf op before after t0 t1 d.
  unfold do_fsync, bind, fget, fput, vfs_fsync. rewrite Hfd, call_eq.
  change (set_klog (klog st ++ [Ev_fget fd]) st) with (logged [Ev_fget fd] st).
  rewrite logged_logged.
  rewrite (vfs_fsync_range_calls cfg extern f 0 LLONG_MAX datasync _
             (eq_trans (dyn_fsync_gate_logged cfg _ st) Hg) Hf).
  rewrite emit_eq, call_eq, !logged_logged.
  cbn [klog logged set_klog app]. rewrite <- ?app_assoc. cbn [app].
  fold op. subst before after. cbn [app] in *. fold t0 t1 d. unfold when.
  destruct (5000000000 <=? d); run_kernel.
Qed.

(** X7: fsync() and fdatasync() outside the kill switch.  A descriptor
    that is not open gives [-EBADF] before the clock is read.  On an open
    file with a flush capability the capability is called once, on the
    whole file from 0 to [LLONG_MAX], with [datasync] 0 for fsync() and 1
    for fdatasync(); what it answers is returned unchanged; the reference
    is released; and the time taken only decides whether a line is
    printed, which happens from five seconds on. *)
Theorem fsync_passes_result cfg extern fd st :
  dyn_fsync_gate cfg st = false ->
  (fdtable st fd = None ->
   sys_fsync cfg extern fd st = (- EBADF, logged [Ev_fget fd] st) /\
   sys_fdatasync cfg extern fd st = (- EBADF, logged [Ev_fget fd] st))
  /\ (forall f, fdtable st fd = Some f -> f_op_fsync f = true ->
        let op d := Ev_fsync (f_ino f) 0 LLONG_MAX d in
        let before := [Ev_fget fd; Ev_ktime_get;
                       Ev_trace_vfs_fsync (f_ino f)] in
        let after := [Ev_trace_vfs_fsync_done (f_ino f); Ev_fput (f_ino f)] in
        let t0 := extern (klog st ++ [Ev_fget fd]) Ev_ktime_get in
        let t1 d := extern (klog st ++ before ++ [op d] ++ after)
                           Ev_ktime_get in
        let slow d :=
          if 5000000000 <=? Word.s64 (t1 d - t0)
          then [Ev_pr_info_slow_fsync (Word.s64 (t1 d - t0))] else [] in
        sys_fsync cfg extern fd st
        = (extern (klog st ++ before) (op 0),
           logged (before ++ [op 0] ++ after ++ [Ev_ktime_get] ++ slow 0) st)
        /\ sys_fdatasync cfg extern fd st
           = (extern (klog st ++ before) (op 1),
              logged (before ++ [op 1] ++ after ++ [Ev_ktime_get] ++ slow 1)
                     st)).
Proof.
  intros Hg. split.
  - intros Hfd. unfold sys_fsync, sys_fdatasync, do_fsync, bind, get, fget.
    now rewrite Hg, Hfd.
  - intros f Hfd Hf op before after t0 t1 slow.
    unfold sys_fsync, sys_fdatasync, bind, get. rewrite Hg.
    rewrite (do_fsync_calls cfg extern fd 0 f st Hg Hfd Hf).
    rewrite (do_fsync_calls cfg extern fd 1 f st Hg Hfd Hf).
    split; reflexivity.
Qed.

Lemma fsync_passes_result_witness :
  dyn_fsync_gate cfg_arm boot_state = false /\
  fdtable boot_state 3 = Some file_reg /\
  f_op_fsync file_reg = true /\
  sys_fdatasync cfg_arm quiet 3 boot_state
  = (0, logged [Ev_fget 3; Ev_ktime_get; Ev_trace_vfs_fsync 10;
                Ev_fsync 10 0 LLONG_MAX 1; Ev_trace_vfs_fsync_done 10;
                Ev_fput 10; Ev_ktime_get] boot_state).
Proof.
  repeat (split; [reflexivity | ]).
  exact (proj2 (proj2 (fsync_passes_result cfg_arm quiet 3 boot_state eq_refl)
                  file_reg eq_refl eq_refl)).
Defined.

(** X8: generic_write_sync() after a write of [count] bytes at [pos].  A
    file opened without [O_DSYNC] on an inode that is not synchronous is
    left alone.  Otherwise the single-file sync is asked for the range from
    [pos] to [pos + count - 1], for data only unless [__O_SYNC] is set:
    outside the kill switch a file without a flush capability makes the
    write fail with [-EINVAL] and one with the capability gets exactly one
    call of it, whose answer is returned; under the kill switch even a
    synchronous write is answered with 0 and nothing is flushed. *)
Theorem generic_write_sync_modes cfg extern wf pos count st :
  let f := wf_file wf in
  let datasync := if Z.land (f_flags wf) __O_SYNC =? 0 then 1 else 0 in
  let op := Ev_fsync (f_ino f) pos (Word.s64 (pos + count - 1)) datasync in
  (Z.land (f_flags wf) O_DSYNC = 0 -> host_is_sync wf = false ->
   generic_write_sync cfg extern wf pos count st = (0, st))
  /\ (Z.land (f_flags wf) O_DSYNC <> 0 \/ host_is_sync wf = true ->
      (dyn_fsync_gate cfg st = true ->
       generic_write_sync cfg extern wf pos count st = (0, st))
      /\ (dyn_fsync_gate cfg st = false -> f_op_fsync f = false ->
          generic_write_sync cfg extern wf pos count st = (- EINVAL, st))
      /\ (dyn_fsync_gate cfg st = false -> f_op_fsync f = true ->
          generic_write_sync cfg extern wf pos count st
          = (extern (klog st ++ [Ev_trace_vfs_fsync (f_ino f)]) op,
             logged [Ev_trace_vfs_fsync (f_ino f); op;
                     Ev_trace_vfs_fsync_done (f_ino f)] st)))
  /\ (0 <= pos -> 0 < count -> pos + count <= 2 ^ 63 ->
      pos <= Word.s64 (pos + count - 1) /\
      Word.s64 (pos + count - 1) = pos + count - 1).
Proof.
  intros f datasync op. split; [ | split].
  - intros Hd Hs. unfold generic_write_sync. now rewrite Hd, Hs.
  - intros Hmode.
    assert (E : (Z.land (f_flags wf) O_DSYNC =? 0) && negb (host_is_sync wf)
                = false).
    { destruct Hmode as [Hd | Hs].
      - apply Z.eqb_neq in Hd. now rewrite Hd.
      - rewrite Hs. apply andb_false_r. }
    unfold generic_write_sync. rewrite E. fold f.
    assert (Ed : (if negb (Z.land (f_flags wf) __O_SYNC =? 0) then 0 else 1)
                 = datasync).
    { subst datasync. now destruct (Z.land (f_flags wf) __O_SYNC =? 0). }
    rewrite Ed. split; [ | split].
    + intros Hg. now apply vfs_fsync_range_gated.
    + intros Hg Hf. now apply vfs_fsync_range_no_fsync.
    + intros Hg Hf. now apply vfs_fsync_range_calls.
  - intros Hp Hc Hb.
    rewrite s64_small; [lia | ].
    unfold Word.is_s64. change (2 ^ 63) with 9223372036854775808 in *. lia.
Qed.

Lemma generic_write_sync_modes_witness :
  Z.land (f_flags wf_plain) O_DSYNC = 0 /\
  host_is_sync wf_plain = false /\
  generic_write_sync cfg_arm quiet wf_plain 0 4096 boot_state
  = (0, boot_state).
Proof.
  split; [reflexivity | split; [reflexivity | ]].
  exact (proj1 (generic_write_sync_modes cfg_arm quiet wf_plain 0 4096
                  boot_state) eq_refl eq_refl).
Defined.

(** A write to a file opened [O_SYNC] asks for a full sync of the bytes
    written. *)
Example generic_write_sync_osync :
  generic_write_sync cfg_arm quiet wf_osync 8192 4096 boot_state
  = (0, logged [Ev_trace_vfs_fsync 10; Ev_fsync 10 8192 12287 0;
                Ev_trace_vfs_fsync_done 10] boot_state).
Proof. reflexivity. Qed.

(** A synchronous write of no bytes still asks for a sync, of the empty
    range that ends one byte before it starts. *)
Example generic_write_sync_empty :
  generic_write_sync cfg_arm quiet wf_osync 8192 0 boot_state
  = (0, logged [Ev_trace_vfs_fsync 10; Ev_fsync 10 8192 8191 0;
                Ev_trace_vfs_fsync_done 10] boot_state).
Proof. reflexivity. Qed.

(** ** syncfs() *)

(** What [sync_filesystem] logs belongs to its volume. *)
Lemma sync_filesystem_events extern sb s :
  exists evs,
    snd (sync_filesystem extern sb s) = logged evs s /\
    (writable sb = false -> evs = [] /\ fst (sync_filesystem extern sb s) = 0)
    /\ forall e, In e evs ->
         e = Ev_pr_info_force_sync \/ In e (volume_flush_events sb 0)
         \/ In e (volume_flush_events sb 1).
Proof.
  destruct (writable sb) eqn:Hw.
  - pose proof (sync_filesystem_eq extern sb s Hw) as E. cbv zeta in E.
    rewrite E. clear E.
    set (pre := if vfs_emergency_remount s =? 0
                then [] else [Ev_pr_info_force_sync]).
    set (w1 := if vfs_emergency_remount s =? 0 then 0 else 1).
    assert (Hpre : forall e, In e (pre ++ volume_flush_events sb w1) ->
              e = Ev_pr_info_force_sync \/ In e (volume_flush_events sb 0)
              \/ In e (volume_flush_events sb 1)).
    { intros e He. apply in_app_or in He. subst pre w1.
      destruct (vfs_emergency_remount s =? 0); destruct He as [He | He];
        try (now destruct He); try (destruct He as [<- | []]); auto. }
    match goal with |- context [if ?c then _ else _] => destruct c end;
      cbn [snd]; eexists; (split; [reflexivity | ]);
      (split; [discriminate | ]).
    + exact Hpre.
    + intros e He. apply in_app_or in He. destruct He as [He | He]; auto.
  - exists []. rewrite (sync_filesystem_rdonly extern sb s Hw).
    cbn [fst snd]. rewrite logged_nil.
    split; [reflexivity | split; [now split | intros e []]].
Qed.

(** X9: syncfs().  A descriptor that is not open gives [-EBADF] and no
    volume is touched.  On an open descriptor the call takes [s_umount] of
    the volume of the file for reading right after the resolution and gives
    it back, then releases the file, at the very end, on success and on
    failure; every call in between is a flush call of that one volume (or
    the notice of a forced sync); and a read-only volume gets no call at
    all and the answer 0. *)
Theorem syncfs_one_volume_balanced extern fd st :
  (fdtable st fd = None ->
   sys_syncfs extern fd st = (- EBADF, logged [Ev_fget fd] st))
  /\ (forall f, fdtable st fd = Some f ->
        let sb := d_sb f in
        exists evs,
          snd (sys_syncfs extern fd st)
          = logged ([Ev_fget fd; Ev_down_read_s_umount (s_dev sb)] ++ evs
                    ++ [Ev_up_read_s_umount (s_dev sb); Ev_fput (f_ino f)]) st
          /\ (forall e, In e evs ->
                e = Ev_pr_info_force_sync \/ In e (volume_flush_events sb 0)
                \/ In e (volume_flush_events sb 1))
          /\ (Z.land (s_flags sb) MS_RDONLY <> 0 ->
              evs = [] /\ fst (sys_syncfs extern fd st) = 0)).
Proof.
  split.
  - intros Hfd. unfold sys_syncfs, bind, fget. now rewrite Hfd.
  - intros f Hfd sb.
    set (s1 := logged [Ev_fget fd; Ev_down_read_s_umount (s_dev sb)] st).
    destruct (sync_filesystem_events extern sb s1) as (evs & Hs & Hro & Hin).
    assert (E : sys_syncfs extern fd st
                = (fst (sync_filesystem extern sb s1),
                   logged [Ev_up_read_s_umount (s_dev sb); Ev_fput (f_ino f)]
                          (snd (sync_filesystem extern sb s1)))).
    { unfold sys_syncfs, bind, fget, fput. rewrite Hfd. fold sb.
      rewrite emit_eq.
      change (set_klog (klog st ++ [Ev_fget fd]) st)
        with (logged [Ev_fget fd] st).
      rewrite logged_logged. cbn [app]. fold s1.
      destruct (sync_filesystem extern sb s1) as [r s'].
      cbn [fst snd]. rewrite !emit_eq, logged_logged. reflexivity. }
    exists evs. rewrite E. cbn [fst snd]. rewrite Hs. unfold s1.
    rewrite !logged_logged. split; [ | split].
    + now rewrite <- ?app_assoc.
    + exact Hin.
    + intros Hr. apply Hro. unfold writable. now apply Z.eqb_neq.
Qed.

Lemma syncfs_one_volume_balanced_witness :
  fdtable boot_state 99 = None /\
  sys_syncfs quiet 99 boot_state = (- EBADF, logged [Ev_fget 99] boot_state).
Proof.
  split; [reflexivity | ].
  exact (proj1 (syncfs_one_volume_balanced quiet 99 boot_state) eq_refl).
Defined.

(** syncfs() on a descriptor of the no-op volume: both passes are made and
    neither calls anything. *)
Example syncfs_noop_volume :
  sys_syncfs quiet 5 boot_state
  = (0, logged [Ev_fget 5; Ev_down_read_s_umount 3;
                Ev_up_read_s_umount 3; Ev_fput 12] boot_state).
Proof. reflexivity. Qed.

(** ** The pass over all volumes *)

Lemma in_pass_events e wait sbs :
  In e (pass_events wait sbs) <->
  exists sb, In sb sbs /\ writable sb = true /\ In e (volume_flush_events sb wait).
Proof.
  unfold pass_events. rewrite in_flat_map. split.
  - intros (sb & Hsb & He). exists sb.
    destruct (writable sb); [auto | destruct He].
  - intros (sb & Hsb & Hw & He). exists sb. now rewrite Hw.
Qed.

Lemma in_volume_flush_events_storage e sb wait :
  In e (volume_flush_events sb wait) -> is_noop sb = false.
Proof.
  unfold volume_flush_events. destruct (is_noop sb); [intros [] | reflexivity].
Qed.

Lemma volume_flush_events_blocking sb wait :
  is_noop sb = false ->
  In (Ev_sync_blockdev (s_bdev sb) wait) (volume_flush_events sb wait) /\
  In (if wait =? 0
      then Ev_writeback_inodes_sb (s_dev sb) WB_REASON_SYNC
      else Ev_sync_inodes_sb (s_dev sb)) (volume_flush_events sb wait).
Proof.
  intros Hn. unfold volume_flush_events. rewrite Hn. split.
  - apply in_or_app. right. apply in_or_app. right. apply in_or_app. right.
    now left.
  - apply in_or_app. right. apply in_or_app. left. now left.
Qed.

(** X10: one pass of [sync_filesystems] over the mounted volumes.  What
    the pass calls does not depend on what any call answers: a volume
    whose flush fails does not stop the sweep.  Every writable volume that
    has storage behind it gets its inode write-back and its block-device
    flush in the mode of the pass, and nothing is ever called for a
    volume that is read-only or sits on the no-op backing device. *)
Theorem sync_filesystems_sweeps_all ext1 ext2 wait st :
  snd (sync_filesystems ext1 wait st) = snd (sync_filesystems ext2 wait st)
  /\ exists evs,
       snd (sync_filesystems ext1 wait st) = logged evs st
       /\ (forall sb, In sb (super_blocks st) ->
             Z.land (s_flags sb) MS_RDONLY = 0 ->
             s_bdi sb <> noop_backing_dev_info ->
             In (Ev_sync_blockdev (s_bdev sb) wait) evs /\
             In (if wait =? 0
                 then Ev_writeback_inodes_sb (s_dev sb) WB_REASON_SYNC
                 else Ev_sync_inodes_sb (s_dev sb)) evs)
       /\ (forall e, In e evs ->
             exists sb, In sb (super_blocks st) /\
               Z.land (s_flags sb) MS_RDONLY = 0 /\
               s_bdi sb <> noop_backing_dev_info /\
               In e (volume_flush_events sb wait)).
Proof.
  rewrite !sync_filesystems_eq. cbn [snd]. split; [reflexivity | ].
  exists (pass_events wait (super_blocks st)). split; [reflexivity | split].
  - intros sb Hsb Hw Hn.
    assert (Hn' : is_noop sb = false).
    { unfold is_noop. destruct (s_bdi sb); [now elim Hn | reflexivity]. }
    destruct (volume_flush_events_blocking sb wait Hn') as [H1 H2].
    split; apply in_pass_events; exists sb;
      (split; [exact Hsb | split; [now apply Z.eqb_eq | assumption]]).
  - intros e He. apply in_pass_events in He.
    destruct He as (sb & Hsb & Hw & He). exists sb.
    split; [exact Hsb | split; [now apply Z.eqb_eq | split; [ | exact He]]].
    apply in_volume_flush_events_storage in He. unfold is_noop in He.
    intros E. rewrite E in He. discriminate He.
Qed.

Lemma sync_filesystems_sweeps_all_witness :
  In sb_data (super_blocks boot_state) /\
  Z.land (s_flags sb_data) MS_RDONLY = 0 /\
  s_bdi sb_data <> noop_backing_dev_info /\
  snd (sync_filesystems failing_async_blockdev 1 boot_state)
  = snd (sync_filesystems quiet 1 boot_state).
Proof.
  split; [now left | split; [reflexivity | split; [discriminate | ]]].
  exact (proj1 (sync_filesystems_sweeps_all failing_async_blockdev quiet 1
                  boot_state)).
Defined.

(** ** sync(): who is served by which pass *)

Lemma ULONG_CMP_GE_window cfg (D T : Z) :
  0 < BITS_PER_LONG cfg ->
  Z.abs (D - T) < 2 ^ (BITS_PER_LONG cfg - 1) ->
  ULONG_CMP_GE cfg (ulong cfg D) (ulong cfg T) = (T <=? D).
Proof.
  intros Hw Hd. unfold ULONG_CMP_GE, ulong, Word.unsigned.
  set (w := BITS_PER_LONG cfg) in *.
  rewrite <- Zminus_mod, signed_mod, signed_small by lia.
  destruct (Z.leb_spec T D); [apply Z.leb_le | apply Z.leb_gt]; lia.
Qed.

Lemma ulong_add_l cfg a b :
  0 < BITS_PER_LONG cfg -> ulong cfg (ulong cfg a + b) = ulong cfg (a + b).
Proof.
  intros Hw. unfold ulong, Word.unsigned.
  rewrite Zplus_mod_idemp_l. reflexivity.
Qed.

Lemma even_ulong cfg n :
  0 < BITS_PER_LONG cfg -> Z.even (ulong cfg n) = Z.even n.
Proof.
  intros Hw. unfold ulong, Word.unsigned.
  rewrite (pow2_double _ Hw).
  set (m := 2 ^ (BITS_PER_LONG cfg - 1)).
  assert (Hm : 0 < m) by (apply Z.pow_pos_nonneg; lia).
  rewrite (Z.mod_eq n (2 * m)) by lia.
  replace (n - 2 * m * (n / (2 * m))) with (n + 2 * (- m * (n / (2 * m))))
    by ring.
  apply Z.even_add_mul_2.
Qed.

(** The threshold for a snapshot of the true count [S] is the residue of
    [S + 3] rounded down to even. *)
Lemma sync_threshold_count cfg S :
  0 < BITS_PER_LONG cfg ->
  sync_threshold cfg (ulong cfg S) = ulong cfg (2 * ((S + 3) / 2)).
Proof.
  intros Hw. rewrite sync_threshold_even, ulong_add_l by exact Hw.
  unfold ulong, Word.unsigned. rewrite (pow2_double _ Hw).
  set (m := 2 ^ (BITS_PER_LONG cfg - 1)).
  assert (Hm : 0 < m) by (apply Z.pow_pos_nonneg; lia).
  set (x := S + 3).
  rewrite Zmult_mod_distr_l. f_equal.
  rewrite Z.rem_mul_r by lia.
  pose proof (Z.mod_pos_bound x 2 ltac:(lia)) as Hx.
  rewrite (Z.mul_comm 2 ((x / 2) mod m)), Z.div_add by lia.
  rewrite (Z.div_small (x mod 2) 2) by lia. reflexivity.
Qed.

Lemma sync_skips_iff_fresh_pass_done_aux cfg S D :
  3 <= BITS_PER_LONG cfg ->
  0 <= S <= D ->
  D - S < 2 ^ (BITS_PER_LONG cfg - 1) ->
  Z.even D = true ->
  ULONG_CMP_GE cfg (ulong cfg D) (sync_threshold cfg (ulong cfg S))
  = ((S + 1) / 2 + 1 <=? D / 2).
Proof.
  intros Hw HS Hwin He.
  assert (Hw' : 0 < BITS_PER_LONG cfg) by lia.
  rewrite sync_threshold_count by exact Hw'.
  assert (H4 : 4 <= 2 ^ (BITS_PER_LONG cfg - 1)).
  { change 4 with (2 ^ 2). apply Z.pow_le_mono_r; lia. }
  apply Z.even_spec in He. destruct He as [k Hk].
  assert (Hq : S + 2 <= 2 * ((S + 3) / 2) <= S + 3).
  { pose proof (Z.div_mod (S + 3) 2 ltac:(lia)).
    pose proof (Z.mod_pos_bound (S + 3) 2 ltac:(lia)). lia. }
  rewrite ULONG_CMP_GE_window by lia.
  assert (E1 : (S + 1) / 2 + 1 = (S + 3) / 2).
  { replace (S + 3) with (S + 1 + 1 * 2) by ring.
    rewrite Z.div_add by lia. reflexivity. }
  assert (E2 : D / 2 = k).
  { subst D. rewrite Z.mul_comm. apply Z.div_mul. lia. }
  rewrite E1, E2.
  destruct (Z.leb_spec (2 * ((S + 3) / 2)) D);
    [symmetry; apply Z.leb_le | symmetry; apply Z.leb_gt]; lia.
Qed.

(** X11: the decision of sync() in terms of passes.  Let [S] be how many
    times the counter had been incremented when the caller fetched its
    snapshot and [D] how many times when it holds the mutex, fewer than
    half the range of the counter later.  Passes increment the counter
    when they start and when they end, so [(S + 1) / 2] passes had started
    at the snapshot and [D / 2] have ended by now: the caller skips its
    own pass exactly when a pass that had not started at its snapshot has
    already ended. *)
Theorem sync_skips_iff_fresh_pass_done cfg S D :
  3 <= BITS_PER_LONG cfg ->
  0 <= S <= D ->
  D - S < 2 ^ (BITS_PER_LONG cfg - 1) ->
  Z.even D = true ->
  ULONG_CMP_GE cfg (ulong cfg D) (sync_threshold cfg (ulong cfg S))
  = ((S + 1) / 2 + 1 <=? D / 2).
Proof. apply sync_skips_iff_fresh_pass_done_aux. Qed.

Lemma sync_skips_iff_fresh_pass_done_witness :
  3 <= BITS_PER_LONG cfg_arm /\ 0 <= 2 ^ 32 - 1 <= 2 ^ 32 + 2 /\
  (2 ^ 32 + 2) - (2 ^ 32 - 1) < 2 ^ (BITS_PER_LONG cfg_arm - 1) /\
  Z.even (2 ^ 32 + 2) = true /\
  ULONG_CMP_GE cfg_arm (ulong cfg_arm (2 ^ 32 + 2))
               (sync_threshold cfg_arm (ulong cfg_arm (2 ^ 32 - 1)))
  = ((2 ^ 32 - 1 + 1) / 2 + 1 <=? (2 ^ 32 + 2) / 2).
Proof.
  assert (Hw : 3 <= BITS_PER_LONG cfg_arm) by discriminate.
  assert (HS : 0 <= 2 ^ 32 - 1 <= 2 ^ 32 + 2)
    by (split; discriminate).
  assert (Hwin : (2 ^ 32 + 2) - (2 ^ 32 - 1) < 2 ^ (BITS_PER_LONG cfg_arm - 1))
    by reflexivity.
  repeat (split; [assumption || reflexivity | ]).
  exact (sync_skips_iff_fresh_pass_done cfg_arm (2 ^ 32 - 1) (2 ^ 32 + 2)
           Hw HS Hwin eq_refl).
Defined.

Lemma increments_app a b : increments (a ++ b) = increments a + increments b.
Proof.
  unfold increments. rewrite filter_app, length_app, Nat2Z.inj_add.
  reflexivity.
Qed.

Lemma increments_nonneg h : 0 <= increments h.
Proof. unfold increments. lia. Qed.

Lemma increments_no_store evs :
  forallb (fun e => negb (is_store e)) evs = true -> increments evs = 0.
Proof.
  unfold increments. induction evs as [| e t IH]; [reflexivity | ].
  cbn [forallb filter]. intros H. apply andb_true_iff in H.
  destruct H as [He Ht]. apply negb_true_iff in He. rewrite He. now apply IH.
Qed.

Lemma seq_after_no_store v evs :
  forallb (fun e => negb (is_store e)) evs = true -> seq_after v evs = v.
Proof.
  unfold seq_after. revert v. induction evs as [| e t IH]; [reflexivity | ].
  cbn [forallb fold_left]. intros v H. apply andb_true_iff in H.
  destruct H as [He Ht]. destruct e; try discriminate He; now apply IH.
Qed.

Lemma consecutive_no_store cfg n evs :
  forallb (fun e => negb (is_store e)) evs = true -> consecutive cfg n evs.
Proof.
  induction evs as [| e t IH]; [exact (fun _ => I) | ].
  cbn [forallb]. intros H. apply andb_true_iff in H. destruct H as [He Ht].
  destruct e; try discriminate He; cbn [consecutive]; now apply IH.
Qed.

Lemma consecutive_app cfg n a b :
  consecutive cfg n (a ++ b) <->
  consecutive cfg n a /\ consecutive cfg (n + increments a) b.
Proof.
  revert n. induction a as [| e t IH]; intros n.
  - cbn [app consecutive]. change (increments []) with 0.
    rewrite Z.add_0_r. tauto.
  - assert (Hs : is_store e = true -> increments (e :: t) = 1 + increments t).
    { intros E. unfold increments. cbn [filter]. rewrite E.
      cbn [List.length]. lia. }
    assert (Hn : is_store e = false -> increments (e :: t) = increments t).
    { intros E. unfold increments. cbn [filter]. now rewrite E. }
    destruct e; cbn [app consecutive];
      try (rewrite (Hn eq_refl); apply IH).
    rewrite (Hs eq_refl), IH.
    replace (n + 1 + increments t) with (n + (1 + increments t)) by ring.
    tauto.
Qed.

(** The value read off a history of consecutive stores is the residue of
    the number of increments. *)
Lemma seq_after_consecutive cfg n h :
  consecutive cfg n h ->
  seq_after (ulong cfg n) h = ulong cfg (n + increments h).
Proof.
  unfold seq_after. revert n. induction h as [| e t IH]; intros n Hc.
  - change (increments []) with 0. now rewrite Z.add_0_r.
  - assert (Hn : is_store e = false -> increments (e :: t) = increments t).
    { intros E. unfold increments. cbn [filter]. now rewrite E. }
    destruct e; cbn [consecutive fold_left] in *;
      try (rewrite (Hn eq_refl); now apply IH).
    destruct Hc as [-> Hc]. fold (ulong cfg (n + 1)). rewrite (IH _ Hc).
    f_equal. unfold increments. cbn [filter is_store List.length]. lia.
Qed.

Lemma volume_flush_events_no_store sb wait :
  forallb (fun e => negb (is_store e)) (volume_flush_events sb wait) = true.
Proof.
  unfold volume_flush_events.
  destruct (is_noop sb), (s_qcop_quota_sync sb), (s_op_sync_fs sb),
    (wait =? 0); reflexivity.
Qed.

Lemma pass_events_no_store wait sbs :
  forallb (fun e => negb (is_store e)) (pass_events wait sbs) = true.
Proof.
  unfold pass_events. induction sbs as [| sb l IH]; [reflexivity | ].
  cbn [flat_map]. rewrite forallb_app, IH, andb_true_r.
  destruct (writable sb); [apply volume_flush_events_no_store | reflexivity].
Qed.

Lemma full_pass_events_no_store st :
  forallb (fun e => negb (is_store e)) (full_pass_events st) = true.
Proof.
  unfold full_pass_events.
  rewrite !forallb_app, !pass_events_no_store.
  destruct (laptop_mode st =? 0); reflexivity.
Qed.


Lemma hist_inv_seq_inv cfg st :
  0 < BITS_PER_LONG cfg -> hist_inv cfg st -> seq_inv cfg st.
Proof.
  intros Hw (Hs & He & _). unfold seq_inv. rewrite Hs. split.
  - apply unsigned_range. lia.
  - now rewrite even_ulong.
Qed.

(** One critical section of sync() on a faithful history: the history
    stays faithful, and it gains two increments or none. *)
Lemma sys_sync_locked_history cfg extern snap st :
  0 < BITS_PER_LONG cfg -> hist_inv cfg st ->
  hist_inv cfg (snd (sys_sync_locked cfg extern snap st)) /\
  increments (klog (snd (sys_sync_locked cfg extern snap st)))
  = if ULONG_CMP_GE cfg (sync_seq st) (sync_threshold cfg snap)
    then increments (klog st) else increments (klog st) + 2.
Proof.
  intros Hw Hi.
  pose proof (hist_inv_seq_inv cfg st Hw Hi) as Hsi.
  destruct (sys_sync_locked_spec cfg extern snap st Hw Hsi) as (HT & _ & H).
  cbv zeta in HT, H. rewrite HT.
  destruct Hi as (Hs & He & Hc). destruct Hsi as [Hr Hev].
  destruct (even_next_in_range _ _ Hw Hr Hev) as (Hlt & _ & _).
  set (n := increments (klog st)) in *.
  destruct (ULONG_CMP_GE cfg (sync_seq st) _).
  - rewrite H. unfold hist_inv.
    assert (N : forallb (fun e => negb (is_store e))
                  [Ev_mutex_lock_sync_mutex; Ev_mutex_unlock_sync_mutex] = true)
      by reflexivity.
    rewrite klog_logged, increments_app, (increments_no_store _ N), Z.add_0_r.
    change (sync_seq (logged [Ev_mutex_lock_sync_mutex;
                              Ev_mutex_unlock_sync_mutex] st))
      with (sync_seq st).
    fold n. split; [ | reflexivity].
    split; [exact Hs | split; [exact He | ]].
    apply consecutive_app. split; [exact Hc | ].
    now apply consecutive_no_store.
  - destruct H as (_ & _ & ->). unfold hist_inv.
    pose proof (full_pass_events_no_store st) as Np.
    assert (E1 : sync_seq st + 1 = ulong cfg (n + 1)).
    { rewrite <- (ulong_add_l cfg n 1 Hw), <- Hs.
      symmetry. apply unsigned_small. lia. }
    assert (E2 : ulong cfg (sync_seq st + 1 + 1) = ulong cfg (n + 1 + 1)).
    { rewrite E1. apply ulong_add_l. exact Hw. }
    set (own := [Ev_mutex_lock_sync_mutex; Ev_store_sync_seq (sync_seq st + 1)]
                ++ full_pass_events st
                ++ [Ev_store_sync_seq (ulong cfg (sync_seq st + 1 + 1));
                    Ev_mutex_unlock_sync_mutex]).
    assert (Hn : increments own = 2).
    { unfold own. rewrite !increments_app, (increments_no_store _ Np).
      reflexivity. }
    change (klog (logged own (set_sync_seq (ulong cfg (sync_seq st + 1 + 1)) st)))
      with (klog st ++ own).
    change (sync_seq (logged own
                        (set_sync_seq (ulong cfg (sync_seq st + 1 + 1)) st)))
      with (ulong cfg (sync_seq st + 1 + 1)).
    rewrite increments_app, Hn. fold n.
    split; [ | reflexivity]. split; [ | split].
    + rewrite E2. f_equal. ring.
    + replace (n + 2) with (Z.succ (Z.succ n)) by ring.
      now rewrite !Z.even_succ_succ.
    + apply consecutive_app. split; [exact Hc | ]. fold n.
      rewrite Z.add_0_l. unfold own. cbn [app consecutive].
      split; [exact E1 | ].
      apply consecutive_app. split; [now apply consecutive_no_store | ].
      rewrite (increments_no_store _ Np), Z.add_0_r. cbn [consecutive].
      split; [exact E2 | exact I].
Qed.

Lemma history_reachable_inv cfg extern st :
  0 < BITS_PER_LONG cfg -> history_reachable cfg extern st -> hist_inv cfg st.
Proof.
  intros Hw Hr.
  induction Hr as [st E L | snap st _ IH | st st' evs _ IH Es El Hn].
  - unfold hist_inv. rewrite E, L.
    split; [ | split; [reflexivity | exact I]].
    unfold ulong, Word.unsigned. change (increments []) with 0.
    symmetry. apply Z.mod_0_l. apply Z.pow_nonzero; lia.
  - now apply sys_sync_locked_history.
  - destruct IH as (Hs & He & Hc). unfold hist_inv.
    rewrite Es, El, increments_app, (increments_no_store _ Hn), Z.add_0_r.
    split; [exact Hs | split; [exact He | ]].
    apply consecutive_app. split; [exact Hc | ].
    now apply consecutive_no_store.
Qed.

(** X12: what a caller of sync() can rely on.  Take a faithful history of
    the kernel, a moment [h0] in it at which the caller fetched its
    snapshot, the value of the counter read off the history up to then,
    and the state in which the caller holds the mutex, fewer than half the
    range of the counter in increments later.  When sync() returns, a pass
    that had not started at the snapshot has ended: one more pass has
    ended than had started then.  The caller makes that pass itself, and
    then just one, exactly when none had ended on its arrival. *)
Theorem sync_returns_after_fresh_pass cfg extern st h0 mid snap :
  3 <= BITS_PER_LONG cfg ->
  history_reachable cfg extern st ->
  klog st = h0 ++ mid ->
  increments mid < 2 ^ (BITS_PER_LONG cfg - 1) ->
  snap = seq_after 0 h0 ->
  let st' := snd (sys_sync_locked cfg extern snap st) in
  let started_at_snapshot := (increments h0 + 1) / 2 in
  let ended_on_arrival := increments (klog st) / 2 in
  let ended_on_return := increments (klog st') / 2 in
  started_at_snapshot + 1 <= ended_on_return
  /\ ended_on_return
     = (if started_at_snapshot + 1 <=? ended_on_arrival
        then ended_on_arrival else ended_on_arrival + 1).
Proof.
  intros Hw Hr Hl Hwin Hsnap st' started ended_a ended_r.
  assert (Hw' : 0 < BITS_PER_LONG cfg) by lia.
  pose proof (history_reachable_inv cfg extern st Hw' Hr) as Hi.
  destruct (sys_sync_locked_history cfg extern snap st Hw' Hi) as [_ Hn].
  fold st' in Hn.
  destruct Hi as (Hs & He & Hc).
  rewrite Hl in Hc. apply consecutive_app in Hc. destruct Hc as [Hc0 _].
  assert (Esnap : snap = ulong cfg (increments h0)).
  { pose proof (seq_after_consecutive cfg 0 h0 Hc0) as Hq.
    assert (U0 : ulong cfg 0 = 0).
    { unfold ulong, Word.unsigned. apply Z.mod_0_l, Z.pow_nonzero; lia. }
    rewrite U0, Z.add_0_l in Hq. rewrite Hsnap. exact Hq. }
  assert (Hsum : increments (klog st) = increments h0 + increments mid)
    by (rewrite Hl; apply increments_app).
  pose proof (increments_nonneg h0). pose proof (increments_nonneg mid).
  rewrite Hs, Esnap in Hn.
  rewrite (sync_skips_iff_fresh_pass_done_aux cfg (increments h0)
             (increments (klog st))) in Hn by (try exact He; lia).
  fold started ended_a in Hn.
  subst ended_r. rewrite Hn.
  apply Z.even_spec in He. destruct He as [k Hk].
  assert (Ek : ended_a = k).
  { subst ended_a. rewrite Hk, Z.mul_comm. apply Z.div_mul. lia. }
  assert (Hst : started < k + 1).
  { subst started. apply Z.div_lt_upper_bound; lia. }
  destruct (Z.leb_spec (started + 1) ended_a).
  - fold ended_a. lia.
  - replace (increments (klog st) + 2) with (increments (klog st) + 1 * 2)
      by ring.
    rewrite Z.div_add by lia. fold ended_a. lia.
Qed.

Lemma sync_returns_after_fresh_pass_witness :
  3 <= BITS_PER_LONG cfg_arm /\
  history_reachable cfg_arm quiet synced_state /\
  klog synced_state
  = firstn 2 (klog synced_state) ++ skipn 2 (klog synced_state) /\
  increments (skipn 2 (klog synced_state)) < 2 ^ (BITS_PER_LONG cfg_arm - 1) /\
  1 = seq_after 0 (firstn 2 (klog synced_state)) /\
  (increments (firstn 2 (klog synced_state)) + 1) / 2 + 1
  <= increments (klog (snd (sys_sync_locked cfg_arm quiet 1 synced_state))) / 2.
Proof.
  assert (Hw : 3 <= BITS_PER_LONG cfg_arm) by discriminate.
  assert (Hr : history_reachable cfg_arm quiet synced_state).
  { apply hist_sync. apply hist_boot; reflexivity. }
  assert (Hl : klog synced_state
               = firstn 2 (klog synced_state) ++ skipn 2 (klog synced_state))
    by (symmetry; apply firstn_skipn).
  assert (Hwin : increments (skipn 2 (klog synced_state))
                 < 2 ^ (BITS_PER_LONG cfg_arm - 1))
    by (vm_compute; reflexivity).
  assert (Hs : 1 = seq_after 0 (firstn 2 (klog synced_state)))
    by (vm_compute; reflexivity).
  repeat (split; [assumption | ]).
  exact (proj1 (sync_returns_after_fresh_pass cfg_arm quiet synced_state
                  (firstn 2 (klog synced_state))
                  (skipn 2 (klog synced_state)) 1 Hw Hr Hl Hwin Hs)).
Defined.

(** For an even counter the threshold of a snapshot of its own value is
    two increments ahead, and has not been reached. *)
Lemma threshold_of_even cfg done :
  0 < BITS_PER_LONG cfg ->
  0 <= done < 2 ^ BITS_PER_LONG cfg -> Z.even done = true ->
  2 * (ulong cfg (done + 3) / 2) = ulong cfg (done + 2).
Proof.
  intros Hw Hr He. apply Z.even_spec in He. destruct He as [k Hk].
  pose proof (pow2_double _ Hw) as E.
  set (m := 2 ^ (BITS_PER_LONG cfg - 1)) in *.
  assert (Hm : 0 < m) by (apply Z.pow_pos_nonneg; lia).
  unfold ulong, Word.unsigned. rewrite E.
  destruct (Z.eq_dec (k + 1) m) as [Ek | Nk].
  - replace (done + 3) with (1 + 1 * (2 * m)) by lia.
    replace (done + 2) with (0 + 1 * (2 * m)) by lia.
    rewrite !Z.mod_add by lia.
    rewrite !Z.mod_small by lia. reflexivity.
  - rewrite !Z.mod_small by lia.
    replace (done + 3) with (1 + (k + 1) * 2) by lia.
    rewrite Z.div_add by lia. change (1 / 2) with 0. lia.
Qed.

Lemma lone_threshold_not_reached cfg done :
  2 <= BITS_PER_LONG cfg ->
  0 <= done < 2 ^ BITS_PER_LONG cfg -> Z.even done = true ->
  ULONG_CMP_GE cfg done (2 * (ulong cfg (done + 3) / 2)) = false.
Proof.
  intros Hw Hr He.
  assert (Hw' : 0 < BITS_PER_LONG cfg) by lia.
  rewrite (threshold_of_even cfg done Hw' Hr He).
  rewrite ULONG_CMP_GE_half by exact Hw'.
  rewrite <- (unsigned_small (BITS_PER_LONG cfg) done Hr) at 1.
  fold (ulong cfg done). unfold ulong, Word.unsigned.
  rewrite <- Zminus_mod. replace (done - (done + 2)) with (-2) by ring.
  pose proof (pow2_double _ Hw') as E.
  set (m := 2 ^ (BITS_PER_LONG cfg - 1)) in *.
  assert (Hm : 2 <= m).
  { subst m. change 2 with (2 ^ 1) at 1. apply Z.pow_le_mono_r; lia. }
  rewrite E.
  replace (-2) with (2 * m - 2 + (-1) * (2 * m)) by ring.
  rewrite Z.mod_add, Z.mod_small by lia.
  apply Z.ltb_ge. lia.
Qed.

(** X13: a sync() that nobody overtakes between its snapshot and the mutex
    always makes the full pass, in every state reachable from boot: it
    cannot be satisfied by a pass that ended before it began.  In that pass
    every mounted writable volume with storage behind it is written back
    with waiting and has its block device flushed with waiting. *)
Theorem lone_sync_always_flushes cfg extern st :
  2 <= BITS_PER_LONG cfg ->
  reachable cfg extern st ->
  let done := sync_seq st in
  sys_sync cfg extern st
  = (0, logged ([Ev_mutex_lock_sync_mutex; Ev_store_sync_seq (done + 1)]
                ++ full_pass_events st
                ++ [Ev_store_sync_seq (ulong cfg (done + 1 + 1));
                    Ev_mutex_unlock_sync_mutex])
               (set_sync_seq (ulong cfg (done + 1 + 1)) st))
  /\ forall sb, In sb (super_blocks st) ->
       Z.land (s_flags sb) MS_RDONLY = 0 ->
       s_bdi sb <> noop_backing_dev_info ->
       In (Ev_sync_inodes_sb (s_dev sb)) (full_pass_events st) /\
       In (Ev_sync_blockdev (s_bdev sb) 1) (full_pass_events st).
Proof.
  intros Hw Hr done.
  assert (Hw' : 0 < BITS_PER_LONG cfg) by lia.
  pose proof (reachable_seq_inv cfg extern st Hw' Hr) as Hi.
  split.
  - rewrite sys_sync_eq.
    destruct (sys_sync_locked_spec cfg extern (sync_seq st) st Hw' Hi)
      as (_ & H0 & H).
    cbv zeta in H.
    destruct Hi as [Hrg He].
    rewrite (lone_threshold_not_reached cfg (sync_seq st) Hw Hrg He) in H.
    destruct H as (_ & _ & Hs).
    rewrite (surjective_pairing (sys_sync_locked cfg extern (sync_seq st) st)).
    now rewrite H0, Hs.
  - intros sb Hsb Hwr Hn.
    assert (Hn' : is_noop sb = false).
    { unfold is_noop. destruct (s_bdi sb); [now elim Hn | reflexivity]. }
    destruct (volume_flush_events_blocking sb 1 Hn') as [H1 H2].
    change (1 =? 0) with false in H2. cbv iota in H2.
    assert (Hp : forall e, In e (volume_flush_events sb 1) ->
                 In e (full_pass_events st)).
    { intros e He. unfold full_pass_events.
      apply in_or_app. right. apply in_or_app. right. apply in_or_app. left.
      apply in_pass_events. exists sb.
      split; [exact Hsb | split; [now apply Z.eqb_eq | exact He]]. }
    split; apply Hp; assumption.
Qed.

Lemma lone_sync_always_flushes_witness :
  2 <= BITS_PER_LONG cfg_arm /\
  reachable cfg_arm quiet boot_state /\
  In (Ev_sync_blockdev (s_bdev sb_data) 1) (full_pass_events boot_state).
Proof.
  assert (Hw : 2 <= BITS_PER_LONG cfg_arm) by discriminate.
  assert (Hr : reachable cfg_arm quiet boot_state)
    by (apply reach_boot; reflexivity).
  split; [exact Hw | split; [exact Hr | ]].
  apply (proj2 (lone_sync_always_flushes cfg_arm quiet boot_state Hw Hr)
           sb_data).
  - now left.
  - reflexivity.
  - discriminate.
Defined.

(** X14: one pass serves every caller whose snapshot is older than the
    pass.  After a sync() has made its pass from a counter value, any
    later critical section that still holds that value as its snapshot,
    with no further pass in between, only takes and releases the mutex
    and returns 0. *)
Theorem shared_snapshot_served_once cfg extern st st2 :
  2 <= BITS_PER_LONG cfg ->
  reachable cfg extern st ->
  sync_seq st2 = sync_seq (snd (sys_sync cfg extern st)) ->
  sys_sync_locked cfg extern (sync_seq st) st2
  = (0, logged [Ev_mutex_lock_sync_mutex; Ev_mutex_unlock_sync_mutex] st2).
Proof.
  intros Hw Hr Hs.
  assert (Hw' : 0 < BITS_PER_LONG cfg) by lia.
  pose proof (reachable_seq_inv cfg extern st Hw' Hr) as [Hrg He].
  destruct (even_next_in_range _ _ Hw' Hrg He) as (_ & _ & Hev).
  assert (E2 : sync_seq st2 = ulong cfg (sync_seq st + 2)).
  { rewrite Hs, sys_sync_eq.
    destruct (sys_sync_locked_spec cfg extern (sync_seq st) st Hw'
                (conj Hrg He)) as (_ & _ & H).
    cbv zeta in H.
    rewrite (lone_threshold_not_reached cfg (sync_seq st) Hw Hrg He) in H.
    destruct H as (_ & _ & ->). cbn [sync_seq logged set_klog set_sync_seq].
    f_equal. ring. }
  assert (Hi2 : seq_inv cfg st2).
  { split.
    - rewrite E2. apply unsigned_range. lia.
    - rewrite E2. replace (sync_seq st + 2) with (sync_seq st + 1 + 1) by ring.
      exact Hev. }
  destruct (sys_sync_locked_spec cfg extern (sync_seq st) st2 Hw' Hi2)
    as (_ & H0 & H).
  cbv zeta in H.
  rewrite (threshold_of_even cfg (sync_seq st) Hw' Hrg He), <- E2 in H.
  assert (Hge : ULONG_CMP_GE cfg (sync_seq st2) (sync_seq st2) = true).
  { rewrite ULONG_CMP_GE_half, Z.sub_diag by exact Hw'.
    unfold ulong, Word.unsigned. rewrite Z.mod_0_l by (apply Z.pow_nonzero; lia).
    apply Z.ltb_lt. apply Z.pow_pos_nonneg; lia. }
  rewrite Hge in H.
  rewrite (surjective_pairing (sys_sync_locked cfg extern (sync_seq st) st2)).
  now rewrite H0, H.
Qed.

Lemma shared_snapshot_served_once_witness :
  2 <= BITS_PER_LONG cfg_arm /\
  reachable cfg_arm quiet boot_state /\
  sync_seq synced_state = sync_seq (snd (sys_sync cfg_arm quiet boot_state)) /\
  sys_sync_locked cfg_arm quiet (sync_seq boot_state) synced_state
  = (0, logged [Ev_mutex_lock_sync_mutex; Ev_mutex_unlock_sync_mutex]
               synced_state).
Proof.
  assert (Hw : 2 <= BITS_PER_LONG cfg_arm) by discriminate.
  assert (Hr : reachable cfg_arm quiet boot_state)
    by (apply reach_boot; reflexivity).
  assert (Hs : sync_seq synced_state
               = sync_seq (snd (sys_sync cfg_arm quiet boot_state)))
    by (vm_compute; reflexivity).
  split; [exact Hw | split; [exact Hr | split; [exact Hs | ]]].
  exact (shared_snapshot_served_once cfg_arm quiet boot_state synced_state
           Hw Hr Hs).
Defined.

(** ** The counter belongs to sync() *)

Lemma keeps_generic_write_sync cfg extern wf pos count :
  keeps_sync_seq (generic_write_sync cfg extern wf pos count).
Proof. unfold generic_write_sync, vfs_fsync_range. keeps. Qed.

(** X15: no entry point of the file other than sync() ever writes the
    counter of sync(): syncfs(), fsync(), fdatasync(), sync_file_range(),
    sync_file_range2(), generic_write_sync(), emergency_sync() and the
    emergency work leave it as they found it, so that no flush of theirs
    is ever taken for a pass by a caller of sync(). *)
Theorem only_sync_writes_sync_seq cfg extern st :
  (forall fd, sync_seq (snd (sys_syncfs extern fd st)) = sync_seq st)
  /\ (forall fd, sync_seq (snd (sys_fsync cfg extern fd st)) = sync_seq st)
  /\ (forall fd, sync_seq (snd (sys_fdatasync cfg extern fd st)) = sync_seq st)
  /\ (forall fd offset nbytes flags,
        sync_seq (snd (sys_sync_file_range cfg extern fd offset nbytes flags st))
        = sync_seq st)
  /\ (forall fd flags offset nbytes,
        sync_seq (snd (sys_sync_file_range2 cfg extern fd flags offset nbytes st))
        = sync_seq st)
  /\ (forall wf pos count,
        sync_seq (snd (generic_write_sync cfg extern wf pos count st))
        = sync_seq st)
  /\ sync_seq (snd (emergency_sync extern st)) = sync_seq st
  /\ (forall w, sync_seq (snd (run_work extern w st)) = sync_seq st).
Proof.
  repeat split; intros.
  - apply keeps_sys_syncfs.
  - apply keeps_sys_fsync.
  - apply keeps_sys_fdatasync.
  - apply keeps_sys_sync_file_range.
  - apply keeps_sys_sync_file_range2.
  - apply keeps_generic_write_sync.
  - apply keeps_emergency_sync.
  - apply keeps_run_work.
Qed.
